(** * IMDB Top 1000 Movie Finder (src/movieapp.py): loader, filter, ranking

    A shallow embedding of the data engine of [movieapp.py]:
    - [load_data]    : the CSV rows to the prepared frame and genre list;
    - [filter_movies]: the three user filters;
    - [main_run]     : the part of [main] that sorts, truncates and
                       summarises the filtered frame.

    A pandas DataFrame is a list of rows in frame order.  A missing value
    (NaN) of a column is [None].  An IMDB rating is kept as the decimal
    number of the CSV, a rational [Q]: the sort compares these rationals,
    which orders them as their float64 values are ordered for decimals of
    up to 15 significant digits.  The summary statistics are computed in
    float64 arithmetic ([SpecFloat], IEEE 754 binary64) on the nearest
    float64 of each rating, as pandas and numpy compute them. *)

From Stdlib Require Import ZArith QArith Lia.
From Stdlib Require Import Ascii String.
From Stdlib Require Import SpecFloat.
From stdpp Require Import base list strings sorting pretty list_monad.
Import ListNotations.

Open Scope Z_scope.
Open Scope string_scope.

(** ** Strings *)

Module Str.

(** Python [str.isspace] on ASCII characters, as used by [str.strip()]. *)
Definition is_space (c : ascii) : bool :=
  let n := Ascii.nat_of_ascii c in
  ((9 <=? n)%nat && (n <=? 13)%nat) || ((28 <=? n)%nat && (n <=? 32)%nat).

(** *** Code points

    [read_csv] decodes the file as UTF-8, and a Python [str] is a sequence
    of code points; a cell is modelled by its UTF-8 bytes.  The regex of
    the runtime cast works on code points, so the cell is decoded first. *)

Local Open Scope Z_scope.

Definition byte (c : ascii) : Z := Z.of_nat (Ascii.nat_of_ascii c).

Definition in_range (lo hi : Z) (c : ascii) : bool := (lo <=? byte c) && (byte c <=? hi).

(** A continuation byte [10xxxxxx]. *)
Definition cont (c : ascii) : bool := in_range 128 191 c.

(** The range of the byte after the lead byte [b0] in a well-formed
    sequence (no overlong form, no surrogate, nothing above U+10FFFF). *)
Definition second_lo (b0 : Z) : Z := if b0 =? 224 then 160 else if b0 =? 240 then 144 else 128.
Definition second_hi (b0 : Z) : Z := if b0 =? 237 then 159 else if b0 =? 244 then 143 else 191.

(** UTF-8 decoding.  A byte that starts no well-formed sequence gives
    U+FFFD and decoding goes on at the next byte; in a cell read by
    [read_csv] this does not happen, as its strict decoder raises first. *)
Fixpoint utf8_decode (s : string) : list Z :=
  match s with
  | EmptyString => []
  | String c0 s1 =>
      let b0 := byte c0 in
      if b0 <? 128 then b0 :: utf8_decode s1
      else
        match s1 with
        | EmptyString => [65533]
        | String c1 s2 =>
            if negb (in_range (second_lo b0) (second_hi b0) c1) then 65533 :: utf8_decode s1
            else if (194 <=? b0) && (b0 <=? 223) then
              ((b0 - 192) * 64 + (byte c1 - 128)) :: utf8_decode s2
            else
              match s2 with
              | EmptyString => 65533 :: utf8_decode s1
              | String c2 s3 =>
                  if negb (cont c2) then 65533 :: utf8_decode s1
                  else if (224 <=? b0) && (b0 <=? 239) then
                    ((b0 - 224) * 4096 + (byte c1 - 128) * 64 + (byte c2 - 128)) :: utf8_decode s3
                  else
                    match s3 with
                    | EmptyString => 65533 :: utf8_decode s1
                    | String c3 s4 =>
                        if (240 <=? b0) && (b0 <=? 244) && cont c3 then
                          ((b0 - 240) * 262144 + (byte c1 - 128) * 4096 + (byte c2 - 128) * 64
                           + (byte c3 - 128)) :: utf8_decode s4
                        else 65533 :: utf8_decode s1
                    end
              end
        end
  end.

(** *** Decimal digits

    The code points of value 0 of the 66 runs of ten decimal digits
    (general category Nd) of Unicode 14.0, the database of Python 3.11.
    The [\d] of a [str] pattern matches exactly these 660 code points, and
    [int()] reads each as its offset from the zero of its run. *)
Definition nd_zeros : list Z :=
  [48; 1632; 1776; 1984; 2406; 2534; 2662; 2790; 2918; 3046; 3174; 3302;
   3430; 3558; 3664; 3792; 3872; 4160; 4240; 6112; 6160; 6470; 6608; 6784;
   6800; 6992; 7088; 7232; 7248; 42528; 43216; 43264; 43472; 43504; 43600;
   44016; 65296; 66720; 68912; 69734; 69872; 69942; 70096; 70384; 70736;
   70864; 71248; 71360; 71472; 71904; 72016; 72784; 73040; 73120; 92768;
   92864; 93008; 120782; 120792; 120802; 120812; 120822; 123200; 123632;
   125264; 130032].

Fixpoint nd_value_in (zs : list Z) (cp : Z) : option Z :=
  match zs with
  | [] => None
  | z :: zs' => if (z <=? cp) && (cp <=? z + 9) then Some (cp - z) else nd_value_in zs' cp
  end.

(** [unicodedata.decimal(chr(cp))]: the value of a decimal digit. *)
Definition decimal_value (cp : Z) : option Z := nd_value_in nd_zeros cp.

(** [cp] matches [\d]. *)
Definition is_digit (cp : Z) : bool :=
  match decimal_value cp with Some _ => true | None => false end.

Definition digit_value (cp : Z) : Z :=
  match decimal_value cp with Some v => v | None => 0 end.

(** The maximal run of digits at the front of [l]. *)
Fixpoint take_run (l : list Z) : list Z :=
  match l with
  | [] => []
  | x :: l' => if is_digit x then x :: take_run l' else []
  end.

(** [re.search('(\d+)', t).group(1)]: the leftmost, longest run of
    digits; [None] when [t] has no digit. *)
Fixpoint search_digits (l : list Z) : option (list Z) :=
  match l with
  | [] => None
  | x :: l' => if is_digit x then Some (take_run l) else search_digits l'
  end.

(** One cell of [str.extract('(\d+)')]: the matched digits, or NaN
    ([None]) when the text has no digit. *)
Definition extract_digits (s : string) : option (list Z) := search_digits (utf8_decode s).

(** [p] is a prefix of [s]. *)
Fixpoint prefix (p s : string) : bool :=
  match p, s with
  | EmptyString, _ => true
  | String c p', String d s' => Ascii.eqb c d && prefix p' s'
  | String _ _, EmptyString => false
  end.

(** Python's [p in s] on strings: [p] occurs in [s] as a substring. *)
Fixpoint contains (p s : string) : bool :=
  prefix p s || match s with EmptyString => false | String _ s' => contains p s' end.

(** Python's [s.split(',')]: always at least one piece. *)
Fixpoint split_on (sep : ascii) (s : string) : list string :=
  match s with
  | EmptyString => [EmptyString]
  | String c s' =>
      match split_on sep s' with
      | [] => [] (* unreachable *)
      | p :: ps => if Ascii.eqb c sep then EmptyString :: p :: ps else String c p :: ps
      end
  end.

Fixpoint lstrip (s : string) : string :=
  match s with
  | EmptyString => EmptyString
  | String c s' => if is_space c then lstrip s' else s
  end.

Definition rev_str (s : string) : string := string_of_list_ascii (rev (list_ascii_of_string s)).

(** Python's [s.strip()]. *)
Definition strip (s : string) : string := rev_str (lstrip (rev_str (lstrip s))).

(** Python's [str] ordering (code point order), used by [sorted]. *)
Definition str_ltb (a b : string) : bool :=
  match String.compare a b with Lt => true | _ => false end.

(** Insertion of [x] into a sorted list without duplicates: the
    [sorted(list(set))] of the loader, built one element at a time. *)
Fixpoint insert_sorted (x : string) (l : list string) : list string :=
  match l with
  | [] => [x]
  | y :: l' => if String.eqb x y then l
               else if str_ltb x y then x :: l else y :: insert_sorted x l'
  end.

End Str.

(** ** The frame *)

(** A row of [imdb_top_1000.csv] as [read_csv] returns it, with the
    columns the engine reads.  The model covers files whose
    [Released_Year] column is read as int64 (a whole number in every row)
    and whose [Runtime] column is read as text (object); a missing or
    non-numeric year, which makes the column float64 or object (NaN
    decades, or a [// 10] that raises), is outside it.  [raw_IMDB_Rating]
    is the decimal written in the CSV; [read_csv] stores the float64
    nearest to it ([F64.of_Q]). *)
Record raw_row := mk_raw {
  raw_Series_Title : string;
  raw_Released_Year : Z;
  raw_Runtime : option string;
  raw_Genre : option string;
  raw_IMDB_Rating : Q
}.

(** A row of the prepared frame: the CSV columns plus the two derived
    columns [Runtime_Minutes] and [Decade]. *)
Record movie := mk_movie {
  Series_Title : string;
  Released_Year : Z;
  Runtime : option string;
  Genre : option string;
  IMDB_Rating : Q;
  Runtime_Minutes : option Z;
  Decade : Z
}.

(** ** load_data *)

Definition int64_max : Z := 9223372036854775807.

(** [sys.get_int_max_str_digits()]: [int()] refuses a text of more
    digits (Python 3.11). *)
Definition int_max_str_digits : nat := 4300.

(** [int(t)] of a run of decimal digits [t]. *)
Definition int_of_digits (d : list Z) : Z :=
  fold_left (fun acc x => acc * 10 + Str.digit_value x) d 0.

(** One cell of [df['Runtime'].str.extract('(\d+)').astype(int)]: the
    object column is cast by [int()] of each cell, then stored as int64.
    [None] when the cast raises: a NaN cell (missing runtime or no digit),
    more than 4300 digits, or a number beyond int64. *)
Definition runtime_cell (r : option string) : option Z :=
  match r with
  | None => None
  | Some s =>
      match Str.extract_digits s with
      | Some d =>
          if Nat.leb (length d) int_max_str_digits && Z.leb (int_of_digits d) int64_max
          then Some (int_of_digits d) else None
      | None => None
      end
  end.

(** The whole-column cast: it raises as soon as one cell fails. *)
Fixpoint runtime_column (rows : list raw_row) : option (list Z) :=
  match rows with
  | [] => Some []
  | r :: rs =>
      match runtime_cell (raw_Runtime r), runtime_column rs with
      | Some n, Some ns => Some (n :: ns)
      | _, _ => None
      end
  end.

(** [(df['Released_Year'] // 10) * 10], floor division. *)
Definition decade_of (year : Z) : Z := (year / 10) * 10.

Definition prepare_row (r : raw_row) (mins : Z) : movie :=
  mk_movie (raw_Series_Title r) (raw_Released_Year r) (raw_Runtime r) (raw_Genre r)
           (raw_IMDB_Rating r) (Some mins) (decade_of (raw_Released_Year r)).

(** [[g.strip() for g in genres_str.split(',')]] *)
Definition genre_tokens (s : string) : list string :=
  map Str.strip (Str.split_on "," s).

(** [sorted(list(all_genres))] where [all_genres] collects the tokens of
    every non-NaN [Genre] cell. *)
Definition genre_vocabulary (rows : list raw_row) : list string :=
  fold_left (fun acc r =>
      match raw_Genre r with
      | None => acc
      | Some s => fold_left (fun acc' g => Str.insert_sorted g acc') (genre_tokens s) acc
      end) rows [].

(** [load_data()].  The argument is the result of [pd.read_csv]: [None]
    when the file is missing or unreadable or a required column is absent
    (the first access raises).  Any exception in the [try] block yields
    [(None, None)], modelled as [None]. *)
Definition load_data (src : option (list raw_row)) : option (list movie * list string) :=
  match src with
  | None => None
  | Some rows =>
      match runtime_column rows with
      | None => None
      | Some mins => Some (zip_with prepare_row rows mins, genre_vocabulary rows)
      end
  end.

(** ** filter_movies *)

(** [any(genre in str(x) for genre in selected_genres) if pd.notna(x) else False] *)
Definition genre_mask (selected_genres : list string) (m : movie) : bool :=
  match Genre m with
  | None => false
  | Some x => existsb (fun g => Str.contains g x) selected_genres
  end.

(** [filtered_df['Runtime_Minutes'] <= max_runtime]; NaN compares false. *)
Definition runtime_mask (max_runtime : Z) (m : movie) : bool :=
  match Runtime_Minutes m with
  | None => false
  | Some k => Z.leb k max_runtime
  end.

(** [filtered_df['Decade'].isin(selected_decades)] *)
Definition decade_mask (selected_decades : list Z) (m : movie) : bool :=
  existsb (Z.eqb (Decade m)) selected_decades.

(** Python truthiness of [max_runtime] ([None] or an int): [if max_runtime:]. *)
Definition truthy_runtime (max_runtime : option Z) : option Z :=
  match max_runtime with
  | Some k => if Z.eqb k 0 then None else Some k
  | None => None
  end.

(** [filter_movies(df, selected_genres, max_runtime, selected_decades)];
    boolean indexing keeps the selected rows in frame order. *)
Definition filter_movies (df : list movie) (selected_genres : list string)
    (max_runtime : option Z) (selected_decades : list Z) : list movie :=
  let f1 := match selected_genres with
            | [] => df
            | _ => List.filter (fun m => genre_mask selected_genres m) df
            end in
  let f2 := match truthy_runtime max_runtime with
            | None => f1
            | Some k => List.filter (fun m => runtime_mask k m) f1
            end in
  match selected_decades with
  | [] => f2
  | _ => List.filter (fun m => decade_mask selected_decades m) f2
  end.

(** The three steps of [filter_movies], one per [if]. *)
Definition genre_step (selected_genres : list string) (l : list movie) : list movie :=
  match selected_genres with
  | [] => l
  | _ => List.filter (fun m => genre_mask selected_genres m) l
  end.

Definition runtime_step (max_runtime : option Z) (l : list movie) : list movie :=
  match truthy_runtime max_runtime with
  | None => l
  | Some k => List.filter (fun m => runtime_mask k m) l
  end.

Definition decade_step (selected_decades : list Z) (l : list movie) : list movie :=
  match selected_decades with
  | [] => l
  | _ => List.filter (fun m => decade_mask selected_decades m) l
  end.

(** ** Sorting: [filtered_df.sort_values('IMDB_Rating', ascending=False)]

    pandas sorts one column with [nargsort(kind='quicksort')], which calls
    numpy's [argsort(kind='quicksort')] on the reversed column and reverses
    the result.  [NumpySort] embeds the generic (non-SIMD) path of numpy's
    [aquicksort_] (introsort: median-of-3 quicksort, insertion sort below
    17 elements, heapsort when the depth limit [2 * msb(num)] runs out),
    over an index array [tosort] and the values [v].  Loops carry a fuel
    bound that the real loops never exceed. *)

Module NumpySort.

Definition SMALL_QUICKSORT : Z := 16.

Definition get (a : list Z) (i : Z) : Z := nth (Z.to_nat i) a 0.
Definition set (a : list Z) (i x : Z) : list Z := <[Z.to_nat i := x]> a.
(** [INTP_SWAP] *)
Definition swap (a : list Z) (i j : Z) : list Z :=
  let x := get a i in let y := get a j in set (set a i y) j x.

Definition val (v : list Q) (k : Z) : Q := nth (Z.to_nat k) v 0%Q.
(** [Tag::less] on doubles without NaN. *)
Definition less (x y : Q) : bool := negb (Qle_bool y x).

Section Sort.
Variable v : list Q.

(** [do { ++pi; } while (Tag::less(v[*pi], vp));] *)
Fixpoint scan_up (fuel : nat) (a : list Z) (pi : Z) (vp : Q) : Z :=
  match fuel with
  | O => pi
  | S f => let pi' := pi + 1 in
           if less (val v (get a pi')) vp then scan_up f a pi' vp else pi'
  end.

(** [do { --pj; } while (Tag::less(vp, v[*pj]));] *)
Fixpoint scan_down (fuel : nat) (a : list Z) (pj : Z) (vp : Q) : Z :=
  match fuel with
  | O => pj
  | S f => let pj' := pj - 1 in
           if less vp (val v (get a pj')) then scan_down f a pj' vp else pj'
  end.

(** The [for (;;)] of the partition; returns the array and [pi]. *)
Fixpoint partition (fuel : nat) (a : list Z) (pi pj : Z) (vp : Q) : list Z * Z :=
  match fuel with
  | O => (a, pi)
  | S f =>
      let pi' := scan_up fuel a pi vp in
      let pj' := scan_down fuel a pj vp in
      if Z.leb pj' pi' then (a, pi') else partition f (swap a pi' pj') pi' pj' vp
  end.

(** The [while ((pr - pl) > SMALL_QUICKSORT)] loop: partitions, pushes the
    larger part with the decremented depth and goes on with the smaller.
    Returns the array, [pl], [pr], [cdepth] and the stack. *)
Fixpoint quick_loop (fuel : nat) (a : list Z) (pl pr cdepth : Z) (stack : list (Z * Z * Z))
    : list Z * Z * Z * Z * list (Z * Z * Z) :=
  match fuel with
  | O => (a, pl, pr, cdepth, stack)
  | S f =>
      if Z.ltb SMALL_QUICKSORT (pr - pl) then
        let pm := pl + Z.shiftr (pr - pl) 1 in
        let a := if less (val v (get a pm)) (val v (get a pl)) then swap a pm pl else a in
        let a := if less (val v (get a pr)) (val v (get a pm)) then swap a pr pm else a in
        let a := if less (val v (get a pm)) (val v (get a pl)) then swap a pm pl else a in
        let vp := val v (get a pm) in
        let pj := pr - 1 in
        let a := swap a pm pj in
        let '(a, pi) := partition fuel a pl pj vp in
        let a := swap a pi (pr - 1) in
        let cdepth := cdepth - 1 in
        if Z.ltb (pi - pl) (pr - pi)
        then quick_loop f a pl (pi - 1) cdepth ((pi + 1, pr, cdepth) :: stack)
        else quick_loop f a (pi + 1) pr cdepth ((pl, pi - 1, cdepth) :: stack)
      else (a, pl, pr, cdepth, stack)
  end.

(** [while (pj > pl && Tag::less(vp, v[*pk])) { *pj-- = *pk--; }] *)
Fixpoint shift_right (fuel : nat) (a : list Z) (pl pj : Z) (vp : Q) : list Z * Z :=
  match fuel with
  | O => (a, pj)
  | S f =>
      if Z.ltb pl pj && less vp (val v (get a (pj - 1)))
      then shift_right f (set a pj (get a (pj - 1))) pl (pj - 1) vp
      else (a, pj)
  end.

(** [for (pi = pl + 1; pi <= pr; ++pi)] insertion sort of [[pl, pr]]. *)
Fixpoint insertion (fuel : nat) (a : list Z) (pl pr pi : Z) : list Z :=
  match fuel with
  | O => a
  | S f =>
      if Z.leb pi pr then
        let vi := get a pi in
        let '(a', pj) := shift_right fuel a pl pi (val v vi) in
        insertion f (set a' pj vi) pl pr (pi + 1)
      else a
  end.

(** The sift-down loop of [aheapsort_]; [a[k]] is [tosort[base + k]]. *)
Fixpoint sift (fuel : nat) (a : list Z) (base n tmp i j : Z) : list Z * Z :=
  match fuel with
  | O => (a, i)
  | S f =>
      if Z.leb j n then
        let j := if Z.ltb j n && less (val v (get a (base + j))) (val v (get a (base + j + 1)))
                 then j + 1 else j in
        if less (val v tmp) (val v (get a (base + j)))
        then sift f (set a (base + i) (get a (base + j))) base n tmp j (j + j)
        else (a, i)
      else (a, i)
  end.

(** [for (l = n >> 1; l > 0; --l)]: build the heap. *)
Fixpoint heapify (fuel : nat) (a : list Z) (base n l : Z) : list Z :=
  match fuel with
  | O => a
  | S f =>
      if Z.ltb 0 l then
        let tmp := get a (base + l) in
        let '(a', i) := sift fuel a base n tmp l (2 * l) in
        heapify f (set a' (base + i) tmp) base n (l - 1)
      else a
  end.

(** [for (; n > 1;)]: move the maximum to the end and sift. *)
Fixpoint sortdown (fuel : nat) (a : list Z) (base n : Z) : list Z :=
  match fuel with
  | O => a
  | S f =>
      if Z.ltb 1 n then
        let tmp := get a (base + n) in
        let a := set a (base + n) (get a (base + 1)) in
        let n := n - 1 in
        let '(a', i) := sift fuel a base n tmp 1 2 in
        sortdown f (set a' (base + i) tmp) base n
      else a
  end.

(** [aheapsort_(vv, pl, n)] *)
Definition aheapsort (fuel : nat) (a : list Z) (pl n : Z) : list Z :=
  let base := pl - 1 in
  sortdown fuel (heapify fuel a base n (Z.shiftr n 1)) base n.

(** The outer [for (;;)] with its [stack_pop]. *)
Fixpoint outer (fuel : nat) (a : list Z) (pl pr cdepth : Z) (stack : list (Z * Z * Z)) : list Z :=
  match fuel with
  | O => a
  | S f =>
      let '(a, stack) :=
        if Z.ltb cdepth 0 then (aheapsort fuel a pl (pr - pl + 1), stack)
        else let '(a, pl, pr, _, stack) := quick_loop fuel a pl pr cdepth stack in
             (insertion fuel a pl pr (pl + 1), stack) in
      match stack with
      | [] => a
      | (pl', pr', d) :: stack' => outer f a pl' pr' d stack'
      end
  end.

(** [npy_get_msb] *)
Definition msb (n : Z) : Z := Z.log2 n.

(** [aquicksort_(v, tosort, num)] *)
Definition aquicksort (a : list Z) : list Z :=
  let num := Z.of_nat (length a) in
  let fuel := (S (length a) * S (length a))%nat in
  outer fuel a 0 (num - 1) (msb num * 2) [].

End Sort.

(** [np.argsort(v, kind='quicksort')] *)
Definition argsort (v : list Q) : list nat :=
  map Z.to_nat (aquicksort v (map Z.of_nat (seq 0 (length v)))).

End NumpySort.

(** ** The ranking and summary part of [main] *)

(** pandas [nargsort(items, kind, ascending=False)] for a column without
    NaN: reverse, [argsort], map back to positions, reverse. *)
Definition nargsort_desc (argsort : list Q -> list nat) (items : list Q) : list nat :=
  let n := length items in
  let non_nans := reverse items in
  let non_nan_idx := reverse (seq 0 n) in
  let indexer := map (fun k => nth k non_nan_idx 0%nat) (argsort non_nans) in
  reverse indexer.

(** [df.sort_values('IMDB_Rating', ascending=False)]: the rows taken in the
    order of the indexer. *)
Definition sort_values_desc (argsort : list Q -> list nat) (df : list movie) : list movie :=
  omap (fun i => df !! i) (nargsort_desc argsort (map IMDB_Rating df)).

(** [df.head(n)], i.e. the Python slice [df[:n]]: a negative [n] drops
    the last [-n] rows. *)
Definition head {A} (n : Z) (l : list A) : list A :=
  if Z.leb 0 n then firstn (Z.to_nat n) l
  else firstn (length l - Z.to_nat (- n)) l.

(** ** float64 arithmetic

    The summary statistics are computed by pandas and numpy in float64:
    IEEE 754 binary64, rounding to nearest with ties to even, as the
    [SpecFloat] library of Rocq specifies it. *)

Module F64.

Definition prec : Z := 53.
Definition emax : Z := 1024.

Definition add (x y : spec_float) : spec_float := SFadd prec emax x y.
Definition div (x y : spec_float) : spec_float := SFdiv prec emax x y.

(** [np.float64(n)] of an integer: the nearest double. *)
Definition of_Z (n : Z) : spec_float := binary_normalize prec emax n 0 false.

(** The double nearest to a rational.  For a decimal of up to 15
    significant digits and 22 decimals, [read_csv]'s parser gives this
    double: it divides the integer of the digits by a power of ten, both
    exact doubles, with one rounding. *)
Definition of_Q (q : Q) : spec_float :=
  match Qnum q with
  | Z0 => S754_zero false
  | Zpos p => SFdiv prec emax (S754_finite false p 0) (S754_finite false (Qden q) 0)
  | Zneg p => SFdiv prec emax (S754_finite true p 0) (S754_finite false (Qden q) 0)
  end.

(** Accumulator [j] of the unrolled loop: the elements [j], [j + 8],
    [j + 16], ... of [l], added from left to right. *)
Definition lane (j : nat) (l : list spec_float) : spec_float :=
  match omap (fun i => if Nat.eqb (i mod 8) j then l !! i else None) (seq 0 (length l)) with
  | [] => S754_nan
  | x :: xs => fold_left add xs x
  end.

(** numpy's [pairwise_sum] for float64 (loops_utils.h): fewer than 8
    elements are added in a loop from -0.0; up to [PW_BLOCKSIZE = 128],
    eight accumulators run over the largest multiple of 8, are combined as
    [((r0 + r1) + (r2 + r3)) + ((r4 + r5) + (r6 + r7))], and the rest is
    added in a loop; above, the sum of the two halves, split at a multiple
    of 8.  [fuel] bounds the depth. *)
Fixpoint pairwise_sum (fuel : nat) (a : list spec_float) : spec_float :=
  let n := length a in
  if Nat.ltb n 8 then fold_left add a (S754_zero true)
  else if Nat.leb n 128 then
    let full := take (n - n mod 8) a in
    fold_left add (drop (n - n mod 8) a)
      (add (add (add (lane 0 full) (lane 1 full)) (add (lane 2 full) (lane 3 full)))
           (add (add (lane 4 full) (lane 5 full)) (add (lane 6 full) (lane 7 full))))
  else
    match fuel with
    | O => S754_nan
    | S fuel' =>
        let n2 := (n / 2 - (n / 2) mod 8)%nat in
        add (pairwise_sum fuel' (take n2 a)) (pairwise_sum fuel' (drop n2 a))
    end.

(** [np.add.reduce] of a float64 array, no cast: the identity 0.0 plus
    the pairwise sum of the whole array. *)
Definition sum (a : list spec_float) : spec_float :=
  add (S754_zero false) (pairwise_sum (length a) a).

(** [np.add.reduce(a, dtype=float64)] of an int64 array: the values are
    cast in buffers of [NPY_BUFSIZE = 8192], and the pairwise sum of each
    buffer is added to the accumulator. *)
Fixpoint buffered_sum (fuel : nat) (acc : spec_float) (a : list spec_float) : spec_float :=
  match fuel, a with
  | O, _ | _, [] => acc
  | S fuel', _ =>
      buffered_sum fuel' (add acc (pairwise_sum 8192 (take 8192 a))) (drop 8192 a)
  end.

(** pandas' [nanops.nanmean] of a float64 column without NaN:
    [the_sum / count], NaN when there is no value. *)
Definition mean (a : list spec_float) : spec_float :=
  match a with
  | [] => S754_nan
  | _ => div (sum a) (of_Z (Z.of_nat (length a)))
  end.

End F64.

(** [Series.mean()] of [Runtime_Minutes].  An int64 column (no NaN in
    the frame) is summed with [dtype=float64] and every row counted; a
    float64 column (some NaN in the frame) has its NaN replaced by 0.0 in
    the sum and left out of the count. *)
Definition runtime_mean (int64_column : bool) (col : list (option Z)) : spec_float :=
  if int64_column then
    match col with
    | [] => S754_nan
    | _ => F64.div (F64.buffered_sum (length col) (S754_zero false)
                                     (map (fun o => F64.of_Z (default 0 o)) col))
                   (F64.of_Z (Z.of_nat (length col)))
    end
  else
    match length (omap (fun o => o) col) with
    | O => S754_nan
    | count =>
        F64.div (F64.sum (map (fun o => match o with
                                        | Some k => F64.of_Z k
                                        | None => S754_zero false
                                        end) col))
                (F64.of_Z (Z.of_nat count))
    end.

(** [Runtime_Minutes] is an int64 column when no row of the frame has a
    NaN there. *)
Definition int64_column (df : list movie) : bool :=
  forallb (fun m => match Runtime_Minutes m with Some _ => true | None => false end) df.

(** [n] in decimal, with at least [p + 1] digits and a point before the
    last [p] ([fixed_digits 1 5 = "0.5"]). *)
Definition fixed_digits (p : nat) (n : N) : string :=
  let s := pretty n in
  let s := String.append (string_of_list_ascii (repeat "0"%char (S p - String.length s))) s in
  match p with
  | O => s
  | _ => String.append (substring 0 (String.length s - p) s)
                       (String.append "." (substring (String.length s - p) p s))
  end.

(** [m * 2^e * 10^p] rounded to an integer, ties to even. *)
Definition scaled_round (p : nat) (m : positive) (e : Z) : N :=
  let num := Zpos m * 10 ^ Z.of_nat p in
  if Z.leb 0 e then Z.to_N (num * 2 ^ e)
  else
    let den := 2 ^ (- e) in
    let q := num / den in
    let r := num mod den in
    Z.to_N (if Z.ltb den (2 * r) || (Z.eqb (2 * r) den && Z.odd q) then q + 1 else q).

(** Python's [format(x, '.<p>f')] of a double: its exact value rounded
    to [p] decimals, ties to even, the sign kept (["-0.0"]). *)
Definition format_fixed (p : nat) (x : spec_float) : string :=
  match x with
  | S754_nan => "nan"
  | S754_infinity s => if s then "-inf" else "inf"
  | S754_zero s => String.append (if s then "-" else "") (fixed_digits p 0)
  | S754_finite s m e => String.append (if s then "-" else "") (fixed_digits p (scaled_round p m e))
  end.

(** [Series.mode().iloc[0]]: the smallest of the most frequent values;
    [None] when [mode()] is empty. *)
Definition mode_first (l : list Z) : option Z :=
  let cnt d := length (List.filter (fun e => Z.eqb e d) l) in
  fold_left (fun acc d =>
      match acc with
      | None => Some d
      | Some b => if Nat.ltb (cnt b) (cnt d) then Some d
                  else if Nat.eqb (cnt b) (cnt d) && Z.ltb d b then Some d
                  else Some b
      end) l None.

(** The four metrics of "Summary Statistics", as shown. *)
Record summary := mk_summary {
  average_rating : string;       (* f"{filtered_df['IMDB_Rating'].mean():.1f}" *)
  average_runtime : string;      (* f"{filtered_df['Runtime_Minutes'].mean():.0f} min" *)
  most_common_decade : string;   (* f"{most_common_decade}s", "N/A" when mode() is empty *)
  total_movies : nat             (* len(filtered_df) *)
}.

(** The statistics of the (sorted) filtered frame; [int64_runtime] is
    the type of its [Runtime_Minutes] column. *)
Definition summarize (int64_runtime : bool) (df : list movie) : summary :=
  mk_summary
    (format_fixed 1 (F64.mean (map (fun m => F64.of_Q (IMDB_Rating m)) df)))
    (String.append (format_fixed 0 (runtime_mean int64_runtime (map Runtime_Minutes df))) " min")
    (String.append (match mode_first (map Decade df) with Some d => pretty d | None => "N/A" end) "s")
    (length df).

(** The value of the "Movies to display" select box: a count or "All". *)
Inductive display_count := Count (n : Z) | All.

(** The options [[10, 25, 50, 100, "All"]] the select box offers. *)
Definition offered (dc : display_count) : Prop :=
  dc = Count 10 \/ dc = Count 25 \/ dc = Count 50 \/ dc = Count 100 \/ dc = All.

(** What one run of [main] puts on the page. *)
Inductive screen :=
  | LoadStopped                                       (* [st.stop()] after a load error *)
  | NoMatches (found : nat)                           (* header and warning, then [return] *)
  | Results (found : nat) (display : list movie) (stats : summary).

(** [main()] from the loaded data and the user's choices, with the argsort
    the installed numpy uses. *)
Definition main_run (argsort : list Q -> list nat)
    (loaded : option (list movie * list string)) (selected_genres : list string)
    (max_runtime : option Z) (selected_decades : list Z) (dc : display_count) : screen :=
  match loaded with
  | None => LoadStopped
  | Some (df, _) =>
      let filtered_df := filter_movies df selected_genres max_runtime selected_decades in
      if Nat.eqb (length filtered_df) 0 then NoMatches (length filtered_df)
      else
        let sorted_df := sort_values_desc argsort filtered_df in
        let display_df := match dc with Count n => head n sorted_df | All => sorted_df end in
        Results (length filtered_df) display_df (summarize (int64_column df) sorted_df)
  end.

(** [main()] on the generic numpy build. *)
Definition main (loaded : option (list movie * list string)) (selected_genres : list string)
    (max_runtime : option Z) (selected_decades : list Z) (dc : display_count) : screen :=
  main_run NumpySort.argsort loaded selected_genres max_runtime selected_decades dc.

(** ** The contract of an argsort *)

(** Consecutive elements of [l] are in relation [R]. *)
Definition sorted_by {A} (R : A -> A -> Prop) (l : list A) : Prop :=
  forall i x y, l !! i = Some x -> l !! S i = Some y -> R x y.

(** What numpy documents of [argsort]: the indices [0 .. n-1], in an
    order that sorts the values ascending.  The order among equal values
    is the algorithm's own. *)
Definition argsort_spec (argsort : list Q -> list nat) : Prop :=
  forall v, Permutation (argsort v) (seq 0 (length v)) /\
            sorted_by (fun i j => Qle (nth i v 0%Q) (nth j v 0%Q)) (argsort v).

#[global] Instance Qle_decision (x y : Q) : Decision (Qle x y).
Proof.
  destruct (Qle_bool x y) eqn:E.
  - left. apply Qle_bool_iff, E.
  - right. intros H. apply Qle_bool_iff in H. congruence.
Defined.

(** Another implementation of the contract: a merge sort of the indices
    by value. *)
Definition merge_argsort (v : list Q) : list nat :=
  merge_sort (fun i j => Qle (nth i v 0%Q) (nth j v 0%Q)) (seq 0 (length v)).

(** The same stable sort started from the indices in reverse order: it
    meets the contract too, and puts equal values in the other order. *)
Definition rev_merge_argsort (v : list Q) : list nat :=
  merge_sort (fun i j => Qle (nth i v 0%Q) (nth j v 0%Q)) (reverse (seq 0 (length v))).

(** ** The sidebar of [main] *)

(** Insertion of [x] into a sorted list of integers without duplicates. *)
Fixpoint insert_sorted_Z (x : Z) (l : list Z) : list Z :=
  match l with
  | [] => [x]
  | y :: l' => if Z.eqb x y then l
               else if Z.ltb x y then x :: l else y :: insert_sorted_Z x l'
  end.

(** [sorted(df['Decade'].unique())]: the options of the decade
    multiselect, built one value at a time. *)
Definition available_decades (df : list movie) : list Z :=
  fold_left (fun acc m => insert_sorted_Z (Decade m) acc) df [].

(** The "Runtime preference" radio; the custom option carries the value
    the slider returns. *)
Inductive runtime_option := AnyLength | Under2Hours | CustomMax (slider : Z).

(** The values of [st.slider(min_value=60, max_value=300, value=120,
    step=10)]. *)
Definition slider_ok (v : Z) : Prop := 60 <= v <= 300 /\ (v - 60) mod 10 = 0.

(** [max_runtime] as [main] sets it from the radio. *)
Definition max_runtime_of (o : runtime_option) : option Z :=
  match o with
  | AnyLength => None
  | Under2Hours => Some 120
  | CustomMax v => Some v
  end.

(** The three masks of [filter_movies] as one row predicate: a skipped
    step keeps every row. *)
Definition keep (selected_genres : list string) (max_runtime : option Z)
    (selected_decades : list Z) (m : movie) : bool :=
  match selected_genres with [] => true | _ => genre_mask selected_genres m end &&
  match truthy_runtime max_runtime with None => true | Some k => runtime_mask k m end &&
  match selected_decades with [] => true | _ => decade_mask selected_decades m end.

(** ** Sample frames *)

Module Sample.

(** The three records of the spec's end-to-end example: C's runtime
    text has no number. *)
Definition row_A : raw_row := mk_raw "A" 1994 (Some "120 min") (Some "Drama") 9.
Definition row_B : raw_row := mk_raw "B" 2004 (Some "95 min") (Some "Comedy") (17 # 2).
Definition row_C : raw_row := mk_raw "C" 1995 (Some "N/A min") (Some "Drama, Comedy") 7.

Definition A : movie := prepare_row row_A 120.
Definition B : movie := prepare_row row_B 95.
(** C as a frame row with a NaN [Runtime_Minutes]. *)
Definition C : movie :=
  mk_movie "C" 1995 (Some "N/A min") (Some "Drama, Comedy") 7 None 1990.

(** A musical, whose genre text contains "Music" without the token. *)
Definition row_M : raw_row := mk_raw "M" 1965 (Some "172 min") (Some "Biography, Drama, Musical") (83 # 10).
Definition M : movie := prepare_row row_M 172.

(** Eighteen rows with the same rating, told apart by their year. *)
Definition ties : list movie :=
  map (fun k => mk_movie "T" (2000 + Z.of_nat k) (Some "100 min") (Some "Drama") 8 (Some 100) 2000)
      (seq 0 18).

End Sample.

(** * Properties *)

(** ** Filtering keeps rows in frame order *)

Lemma filter_sublist {A} (f : A -> bool) (l : list A) : List.filter f l `sublist_of` l.
Proof.
  induction l as [|x l IH]; simpl; [constructor|].
  destruct (f x); [apply sublist_skip | apply sublist_cons]; exact IH.
Qed.

Lemma filter_sublist_mono {A} (f : A -> bool) (l1 l2 : list A) :
  l1 `sublist_of` l2 -> List.filter f l1 `sublist_of` List.filter f l2.
Proof.
  induction 1 as [|x l1 l2 _ IH|x l1 l2 _ IH]; simpl.
  - constructor.
  - destruct (f x); [apply sublist_skip|]; exact IH.
  - destruct (f x); [apply sublist_cons|]; exact IH.
Qed.

Lemma filter_sublist_weaker {A} (f g : A -> bool) (l : list A) :
  (forall x, f x = true -> g x = true) ->
  List.filter f l `sublist_of` List.filter g l.
Proof.
  intros Hfg. induction l as [|x l IH]; simpl; [constructor|].
  destruct (f x) eqn:E.
  - rewrite (Hfg x E). apply sublist_skip, IH.
  - destruct (g x); [apply sublist_cons|]; exact IH.
Qed.

(** [filter_movies] under the frame order. *)
Lemma filter_movies_sublist (df : list movie) gs mr ds :
  filter_movies df gs mr ds `sublist_of` df.
Proof.
  unfold filter_movies.
  assert (H1 : (match gs with [] => df
               | _ => List.filter (fun m => genre_mask gs m) df end) `sublist_of` df)
    by (destruct gs; [reflexivity | apply filter_sublist]).
  set (f1 := match gs with [] => df | _ => _ end) in *.
  assert (H2 : (match truthy_runtime mr with None => f1
               | Some k => List.filter (fun m => runtime_mask k m) f1 end) `sublist_of` df).
  { destruct (truthy_runtime mr); [|exact H1].
    etransitivity; [apply filter_sublist | exact H1]. }
  set (f2 := match truthy_runtime mr with None => f1 | Some _ => _ end) in *.
  destruct ds; [exact H2|].
  etransitivity; [apply filter_sublist | exact H2].
Qed.

(** ** The loader *)

Lemma runtime_column_spec rows mins :
  runtime_column rows = Some mins ->
  Forall2 (fun r n => runtime_cell (raw_Runtime r) = Some n) rows mins.
Proof.
  revert mins; induction rows as [|r rs IH]; simpl; intros mins H.
  - injection H as <-. constructor.
  - destruct (runtime_cell (raw_Runtime r)) eqn:E1; [|discriminate].
    destruct (runtime_column rs) eqn:E2; [|discriminate].
    injection H as <-. constructor; [exact E1 | apply IH; reflexivity].
Qed.

Lemma runtime_column_none rows r :
  In r rows -> runtime_cell (raw_Runtime r) = None -> runtime_column rows = None.
Proof.
  induction rows as [|r' rs IH]; simpl; [tauto|].
  intros [<- | Hin] Hnone.
  - rewrite Hnone. reflexivity.
  - rewrite (IH Hin Hnone). destruct (runtime_cell (raw_Runtime r')); reflexivity.
Qed.

Lemma In_zip_with_prepare rows mins m :
  Forall2 (fun r n => runtime_cell (raw_Runtime r) = Some n) rows mins ->
  In m (zip_with prepare_row rows mins) ->
  exists r n, In r rows /\ runtime_cell (raw_Runtime r) = Some n /\ m = prepare_row r n.
Proof.
  induction 1 as [|r n rs ns Hrn _ IH]; simpl; [tauto|].
  intros [<- | Hin].
  - exists r, n. auto.
  - destruct (IH Hin) as (r' & n' & ? & ? & ?). exists r', n'. auto.
Qed.

(** ** Claims on the loader and the filter *)

(** C9: [filter_movies] returns a subsequence of the frame: the rows it
    keeps stay in frame order, none is repeated or moved. *)
Theorem filter_movies_subsequence (df : list movie) (selected_genres : list string)
    (max_runtime : option Z) (selected_decades : list Z) :
  filter_movies df selected_genres max_runtime selected_decades `sublist_of` df.
Proof. apply filter_movies_sublist. Qed.

(** C10: every row of a frame that [load_data] returns has a non-null
    integer [Runtime_Minutes], the number parsed from its [Runtime] text;
    otherwise [load_data] returns no frame at all. *)
Theorem load_data_runtime_non_null (src : option (list raw_row)) (df : list movie)
    (genres : list string) :
  load_data src = Some (df, genres) ->
  forall m, In m df ->
  exists n, Runtime_Minutes m = Some n /\ runtime_cell (Runtime m) = Some n.
Proof.
  destruct src as [rows|]; simpl; [|discriminate].
  destruct (runtime_column rows) as [mins|] eqn:E; [|discriminate].
  intros H; injection H as <- _. intros m Hin.
  destruct (In_zip_with_prepare rows mins m (runtime_column_spec _ _ E) Hin)
    as (r & n & _ & Hn & ->).
  exists n. split; [reflexivity | exact Hn].
Qed.

Lemma load_data_runtime_non_null_witness :
  load_data (Some [Sample.row_A; Sample.row_B]) = Some ([Sample.A; Sample.B], ["Comedy"; "Drama"]) /\
  exists n, Runtime_Minutes Sample.A = Some n /\ runtime_cell (Runtime Sample.A) = Some n.
Proof.
  split; [reflexivity|].
  apply (load_data_runtime_non_null (Some [Sample.row_A; Sample.row_B]) [Sample.A; Sample.B]
           ["Comedy"; "Drama"]); [reflexivity | left; reflexivity].
Defined.

(** C2 (counterexample): one row whose runtime text has no number makes
    the whole load fail: no frame is returned. *)
Lemma load_data_one_bad_row_fails :
  load_data (Some [Sample.row_A; Sample.row_B; Sample.row_C]) = None.
Proof. reflexivity. Qed.

(** C2 (amended): when the runtime of some row is missing or has no
    character matched by [\d] (a decimal digit of any script), the cast
    raises and [load_data] fails as a whole: it returns no frame. *)
Theorem load_data_unparsable_runtime_fails (rows : list raw_row) (r : raw_row) :
  In r rows ->
  (raw_Runtime r = None \/
   exists s, raw_Runtime r = Some s /\ Str.extract_digits s = None) ->
  load_data (Some rows) = None.
Proof.
  intros Hin Hr. simpl.
  assert (Hc : runtime_cell (raw_Runtime r) = None).
  { destruct Hr as [-> | (s & -> & Hs)]; simpl; [reflexivity|]. rewrite Hs. reflexivity. }
  rewrite (runtime_column_none rows r Hin Hc). reflexivity.
Qed.

Lemma load_data_unparsable_runtime_fails_witness :
  load_data (Some [Sample.row_A; Sample.row_C]) = None.
Proof.
  apply (load_data_unparsable_runtime_fails [Sample.row_A; Sample.row_C] Sample.row_C).
  - right; left; reflexivity.
  - right. exists "N/A min". split; reflexivity.
Defined.

(** C8 (failing input): a ceiling of 0 is set but falsy, so [if
    max_runtime:] skips the runtime filter: a 120-minute movie and a movie
    with a NaN runtime both pass the ceiling 0. *)
Theorem filter_movies_zero_ceiling_ignored :
  filter_movies [Sample.A; Sample.C] [] (Some 0) [] = [Sample.A; Sample.C] /\
  Runtime_Minutes Sample.A = Some 120 /\ Runtime_Minutes Sample.C = None.
Proof. repeat split. Qed.

(** ** Monotonicity of the filter *)

Lemma filter_movies_steps df gs mr ds :
  filter_movies df gs mr ds = decade_step ds (runtime_step mr (genre_step gs df)).
Proof. reflexivity. Qed.

Lemma genre_step_mono gs l1 l2 : l1 `sublist_of` l2 -> genre_step gs l1 `sublist_of` genre_step gs l2.
Proof. destruct gs; [tauto | apply filter_sublist_mono]. Qed.

Lemma runtime_step_mono mr l1 l2 : l1 `sublist_of` l2 -> runtime_step mr l1 `sublist_of` runtime_step mr l2.
Proof. unfold runtime_step. destruct (truthy_runtime mr); [apply filter_sublist_mono | tauto]. Qed.

Lemma decade_step_mono ds l1 l2 : l1 `sublist_of` l2 -> decade_step ds l1 `sublist_of` decade_step ds l2.
Proof. destruct ds; [tauto | apply filter_sublist_mono]. Qed.

Lemma genre_step_widen gs g l :
  gs <> [] -> genre_step gs l `sublist_of` genre_step (g :: gs) l.
Proof.
  intros Hne. destruct gs as [|g' gs']; [congruence|]. simpl.
  apply filter_sublist_weaker. intros m. unfold genre_mask.
  destruct (Genre m); [|discriminate]. simpl. intros ->. apply orb_true_r.
Qed.

Lemma decade_step_widen ds d l :
  ds <> [] -> decade_step ds l `sublist_of` decade_step (d :: ds) l.
Proof.
  intros Hne. destruct ds as [|d' ds']; [congruence|]. simpl.
  apply filter_sublist_weaker. intros m. unfold decade_mask. simpl.
  intros ->. apply orb_true_r.
Qed.

Lemma runtime_step_tighten c2 mr l :
  c2 <> 0 -> (mr = None \/ exists c1, mr = Some c1 /\ c2 <= c1) ->
  runtime_step (Some c2) l `sublist_of` runtime_step mr l.
Proof.
  intros Hc2 Hmr. unfold runtime_step, truthy_runtime at 1.
  rewrite (proj2 (Z.eqb_neq c2 0) Hc2).
  destruct Hmr as [-> | (c1 & -> & Hle)]; simpl; [apply filter_sublist|].
  destruct (Z.eqb c1 0); [apply filter_sublist|].
  apply filter_sublist_weaker. intros m. unfold runtime_mask.
  destruct (Runtime_Minutes m); [|discriminate].
  rewrite !Z.leb_le. lia.
Qed.

(** C7 (counterexample): with no genre selected every row passes; adding
    "Drama" to the empty selection removes B. *)
Lemma filter_movies_first_genre_narrows :
  length (filter_movies [Sample.A; Sample.B] [] None []) = 2%nat /\
  length (filter_movies [Sample.A; Sample.B] ["Drama"] None []) = 1%nat.
Proof. split; reflexivity. Qed.

(** C7 (amended): adding a genre to a non-empty genre selection never
    shrinks the result; adding a decade to a non-empty decade selection
    never shrinks it; setting or lowering the runtime ceiling to a value
    other than 0 never grows it. *)
Theorem filter_movies_monotone (df : list movie) (gs : list string) (mr : option Z) (ds : list Z) :
  (forall g, gs <> [] ->
     (length (filter_movies df gs mr ds) <= length (filter_movies df (g :: gs) mr ds))%nat) /\
  (forall d, ds <> [] ->
     (length (filter_movies df gs mr ds) <= length (filter_movies df gs mr (d :: ds)))%nat) /\
  (forall c2, c2 <> 0 -> (mr = None \/ exists c1, mr = Some c1 /\ c2 <= c1) ->
     (length (filter_movies df gs (Some c2) ds) <= length (filter_movies df gs mr ds))%nat).
Proof.
  rewrite !filter_movies_steps. repeat split.
  - intros g Hne. apply sublist_length.
    apply decade_step_mono, runtime_step_mono, genre_step_widen, Hne.
  - intros d Hne. apply sublist_length, decade_step_widen, Hne.
  - intros c2 Hc2 Hmr. rewrite !filter_movies_steps. apply sublist_length.
    apply decade_step_mono, runtime_step_tighten; assumption.
Qed.

Lemma filter_movies_monotone_witness :
  (length (filter_movies [Sample.A; Sample.B; Sample.C] ["Drama"] None [])
     <= length (filter_movies [Sample.A; Sample.B; Sample.C] ["Comedy"; "Drama"] None []))%nat /\
  (length (filter_movies [Sample.A; Sample.B; Sample.C] ["Drama"] None [1990%Z])
     <= length (filter_movies [Sample.A; Sample.B; Sample.C] ["Drama"] None [2000%Z; 1990%Z]))%nat /\
  (length (filter_movies [Sample.A; Sample.B; Sample.C] ["Drama"] (Some 100%Z) [1990%Z])
     <= length (filter_movies [Sample.A; Sample.B; Sample.C] ["Drama"] (Some 150%Z) [1990%Z]))%nat.
Proof.
  repeat split.
  - apply (proj1 (filter_movies_monotone [Sample.A; Sample.B; Sample.C] ["Drama"] None [])).
    discriminate.
  - apply (proj1 (proj2 (filter_movies_monotone [Sample.A; Sample.B; Sample.C] ["Drama"] None [1990%Z]))).
    discriminate.
  - apply (proj2 (proj2 (filter_movies_monotone [Sample.A; Sample.B; Sample.C] ["Drama"] (Some 150%Z) [1990%Z]))).
    + discriminate.
    + right. exists 150. split; [reflexivity | lia].
Defined.


(** ** Substrings *)

Module StrFacts.
Import Str.

Lemma app_cons_s (c : ascii) (a b : string) : String c a ++ b = String c (a ++ b).
Proof. reflexivity. Qed.

Lemma app_assoc_s (a b c : string) : (a ++ b) ++ c = a ++ (b ++ c).
Proof. induction a as [|x a IH]; [reflexivity|]. rewrite !app_cons_s, IH. reflexivity. Qed.

Lemma prefix_spec (p s : string) : prefix p s = true <-> exists b, s = p ++ b.
Proof.
  revert s; induction p as [|c p IH]; intros s; simpl.
  - split; [intros _; exists s; reflexivity | reflexivity].
  - destruct s as [|d s].
    + split; [discriminate | intros [b Hb]; discriminate].
    + rewrite andb_true_iff, IH. split.
      * intros [Hcd [b ->]]. apply Ascii.eqb_eq in Hcd. subst. exists b. reflexivity.
      * intros [b Hb]. rewrite app_cons_s in Hb. injection Hb as -> ->.
        split; [apply Ascii.eqb_refl | exists b; reflexivity].
Qed.

Lemma contains_spec (p s : string) : contains p s = true <-> exists a b, s = a ++ p ++ b.
Proof.
  induction s as [|c s IH]; simpl.
  - rewrite orb_false_r, prefix_spec. split.
    + intros [b Hb]. exists "", b. exact Hb.
    + intros (a & b & Hab). destruct a; [exists b; exact Hab | discriminate].
  - rewrite orb_true_iff, prefix_spec, IH. split.
    + intros [[b Hb] | (a & b & Hab)].
      * exists "", b. exact Hb.
      * exists (String c a), b. rewrite Hab. reflexivity.
    + intros (a & b & Hab). destruct a as [|x a].
      * left. exists b. exact Hab.
      * right. rewrite app_cons_s in Hab. injection Hab as -> Hs. exists a, b. exact Hs.
Qed.

Lemma list_ascii_app (a b : string) :
  list_ascii_of_string (a ++ b) = (list_ascii_of_string a ++ list_ascii_of_string b)%list.
Proof.
  induction a as [|x a IH]; [reflexivity|].
  rewrite app_cons_s. simpl. rewrite IH. reflexivity.
Qed.

Lemma string_of_list_app (a b : list ascii) :
  string_of_list_ascii (a ++ b)%list = string_of_list_ascii a ++ string_of_list_ascii b.
Proof.
  induction a as [|x a IH]; [reflexivity|].
  simpl. rewrite IH. reflexivity.
Qed.

Lemma rev_str_app (a b : string) : rev_str (a ++ b) = rev_str b ++ rev_str a.
Proof. unfold rev_str. rewrite list_ascii_app, rev_app_distr, string_of_list_app. reflexivity. Qed.

Lemma rev_str_involutive (a : string) : rev_str (rev_str a) = a.
Proof.
  unfold rev_str. rewrite list_ascii_of_string_of_list_ascii, rev_involutive.
  apply string_of_list_ascii_of_string.
Qed.

Lemma lstrip_suffix (s : string) : exists a, s = a ++ lstrip s.
Proof.
  induction s as [|c s [a Ha]]; simpl; [exists ""; reflexivity|].
  destruct (is_space c).
  - exists (String c a). rewrite app_cons_s, <- Ha. reflexivity.
  - exists "". reflexivity.
Qed.

Lemma strip_infix (s : string) : exists a b, s = a ++ strip s ++ b.
Proof.
  destruct (lstrip_suffix s) as [a Ha].
  destruct (lstrip_suffix (rev_str (lstrip s))) as [a' Ha'].
  exists a, (rev_str a'). unfold strip.
  rewrite Ha at 1. f_equal.
  rewrite <- (rev_str_involutive (lstrip s)) at 1. rewrite Ha' at 1. rewrite rev_str_app. reflexivity.
Qed.

Lemma split_on_first_prefix (sep : ascii) (s q : string) (qs : list string) :
  split_on sep s = q :: qs -> exists u, s = q ++ u.
Proof.
  revert q qs; induction s as [|y s IH]; simpl; intros q qs H.
  - injection H as <- _. exists "". reflexivity.
  - destruct (split_on sep s) as [|r rs] eqn:E; [discriminate|].
    destruct (Ascii.eqb y sep); injection H as <- _.
    + exists (String y s). reflexivity.
    + destruct (IH r rs eq_refl) as [u Hu]. exists u. rewrite app_cons_s, <- Hu. reflexivity.
Qed.

Lemma split_on_infix (sep : ascii) (s p : string) :
  In p (split_on sep s) -> exists a b, s = a ++ p ++ b.
Proof.
  revert p; induction s as [|c s IH]; intros p; simpl.
  - intros [<- | []]. exists "", "". reflexivity.
  - destruct (split_on sep s) as [|q qs] eqn:E; [intros []|].
    assert (Hrest : In p (q :: qs) -> exists a b, String c s = a ++ p ++ b).
    { intros Hin. destruct (IH p Hin) as (a & b & ->).
      exists (String c a), b. reflexivity. }
    destruct (Ascii.eqb c sep).
    + intros [<- | Hin]; [exists "", (String c s); reflexivity | exact (Hrest Hin)].
    + intros [<- | Hin]; [|exact (Hrest (or_intror Hin))].
      destruct (split_on_first_prefix sep s q qs E) as [u ->].
      exists "", u. reflexivity.
Qed.

Lemma infix_trans (p q s : string) :
  (exists a b, q = a ++ p ++ b) -> (exists a b, s = a ++ q ++ b) -> exists a b, s = a ++ p ++ b.
Proof.
  intros (a & b & ->) (c & d & ->).
  exists (c ++ a), (b ++ d).
  rewrite !app_assoc_s. reflexivity.
Qed.

(** Every token of [genre_tokens x] occurs in [x]. *)
Lemma genre_token_contained (x g : string) : In g (genre_tokens x) -> contains g x = true.
Proof.
  unfold genre_tokens. intros Hin. apply in_map_iff in Hin as (p & <- & Hp).
  apply contains_spec. eapply infix_trans; [apply strip_infix | apply (split_on_infix "," x p Hp)].
Qed.

End StrFacts.

(** ** The genre filter *)

Lemma decade_mask_spec ds m : decade_mask ds m = true <-> In (Decade m) ds.
Proof.
  unfold decade_mask. rewrite existsb_exists. split.
  - intros (d & Hd & Heq). apply Z.eqb_eq in Heq. subst. exact Hd.
  - intros Hin. exists (Decade m). split; [exact Hin | apply Z.eqb_refl].
Qed.

Lemma genre_mask_spec gs m :
  genre_mask gs m = true <-> exists x g, Genre m = Some x /\ In g gs /\ Str.contains g x = true.
Proof.
  unfold genre_mask. destruct (Genre m) as [x|].
  - rewrite existsb_exists. split.
    + intros (g & Hg & Hc). exists x, g. auto.
    + intros (x' & g & Hx & Hg & Hc). injection Hx as <-. exists g. auto.
  - split; [discriminate | intros (x' & g & Hx & _); discriminate].
Qed.

Lemma In_filter_bool {A} (f : A -> bool) l x : In x (List.filter f l) <-> In x l /\ f x = true.
Proof. apply filter_In. Qed.

(** C1 (counterexample): with "Music" selected, the musical M passes,
    although "Music" is none of its genre tokens. *)
Lemma filter_movies_music_selects_musical :
  In Sample.M (filter_movies [Sample.M] ["Music"] None []) /\
  ~ (exists g, In g ["Music"] /\ In g (genre_tokens "Biography, Drama, Musical")).
Proof.
  split; [left; reflexivity|].
  intros (g & [<- | []] & Hin). simpl in Hin.
  repeat (destruct Hin as [Hin | Hin]; [discriminate Hin|]). exact Hin.
Qed.

(** C1 (amended): with a non-empty genre selection, a row is kept iff it
    is in the frame, its raw [Genre] text is present and contains one of
    the selected genres as a substring, and it passes the runtime and
    decade filters.  A row one of whose genre tokens is selected passes
    the genre test; a row can also pass by a longer token. *)
Theorem filter_movies_genre_substring (df : list movie) (gs : list string)
    (mr : option Z) (ds : list Z) (m : movie) :
  gs <> [] ->
  (In m (filter_movies df gs mr ds) <->
     In m df /\
     (exists x g, Genre m = Some x /\ In g gs /\ Str.contains g x = true) /\
     (match truthy_runtime mr with None => True | Some k => runtime_mask k m = true end) /\
     (ds = [] \/ In (Decade m) ds)) /\
  ((exists x g, Genre m = Some x /\ In g gs /\ In g (genre_tokens x)) ->
     genre_mask gs m = true).
Proof.
  intros Hne. split.
  - rewrite filter_movies_steps. unfold decade_step, runtime_step, genre_step.
    destruct gs as [|g0 gs0]; [congruence|].
    assert (Hd : forall l, In m (match ds with [] => l
                   | _ => List.filter (fun m => decade_mask ds m) l end) <->
                   In m l /\ (ds = [] \/ In (Decade m) ds)).
    { intros l. destruct ds as [|d ds0]; [tauto|].
      rewrite In_filter_bool, decade_mask_spec. split; [tauto|].
      intros [H [H' | H']]; [discriminate | tauto]. }
    rewrite Hd.
    destruct (truthy_runtime mr) as [k|].
    + rewrite In_filter_bool, In_filter_bool, genre_mask_spec. tauto.
    + rewrite In_filter_bool, genre_mask_spec. tauto.
  - intros (x & g & Hx & Hg & Ht). apply genre_mask_spec.
    exists x, g. split; [exact Hx | split; [exact Hg|]].
    apply StrFacts.genre_token_contained. exact Ht.
Qed.

Lemma filter_movies_genre_substring_witness :
  In Sample.M (filter_movies [Sample.M] ["Music"] None []) /\
  genre_mask ["Drama"] Sample.A = true.
Proof.
  split.
  - apply (proj1 (filter_movies_genre_substring [Sample.M] ["Music"] None [] Sample.M
                    ltac:(discriminate))).
    split; [left; reflexivity|].
    split; [exists "Biography, Drama, Musical", "Music"; split; [reflexivity|split; [left; reflexivity | reflexivity]]|].
    split; [exact I | left; reflexivity].
  - apply (proj2 (filter_movies_genre_substring [Sample.A] ["Drama"] None [] Sample.A
                    ltac:(discriminate))).
    exists "Drama", "Drama". split; [reflexivity | split; left; reflexivity].
Defined.

(** ** pandas' descending sort, for any argsort meeting the contract *)

Lemma lookup_map_std {A B} (f : A -> B) (l : list A) i : map f l !! i = f <$> l !! i.
Proof. revert i; induction l as [|x l IH]; intros [|i]; simpl; auto. Qed.

Lemma omap_lookup_seq_from {A} (x : A) (l : list A) k n :
  omap (fun i => (x :: l) !! i) (seq (S k) n) = omap (fun i => l !! i) (seq k n).
Proof. revert k; induction n as [|n IH]; intros k; simpl; [reflexivity|]. rewrite IH. reflexivity. Qed.

Lemma omap_lookup_seq {A} (l : list A) : omap (fun i => l !! i) (seq 0 (length l)) = l.
Proof.
  induction l as [|x l IH]; [reflexivity|].
  simpl length. rewrite <- cons_seq. simpl. rewrite omap_lookup_seq_from, IH. reflexivity.
Qed.

Lemma map_nth_seq_self (L : list nat) : map (fun k => nth k L 0%nat) (seq 0 (length L)) = L.
Proof.
  induction L as [|x L IH]; [reflexivity|].
  simpl length. rewrite <- cons_seq. simpl. f_equal.
  rewrite <- seq_shift, map_map. exact IH.
Qed.

Lemma nth_reverse_seq n k : (k < n)%nat -> nth k (reverse (seq 0 n)) 0%nat = (n - S k)%nat.
Proof.
  intros Hk. apply nth_lookup_Some.
  rewrite reverse_lookup by (rewrite length_seq; exact Hk).
  rewrite length_seq, lookup_seq_lt by lia. reflexivity.
Qed.

Lemma nargsort_desc_perm argsort (items : list Q) :
  argsort_spec argsort ->
  Permutation (nargsort_desc argsort items) (seq 0 (length items)).
Proof.
  intros Hspec. unfold nargsort_desc.
  rewrite reverse_Permutation.
  destruct (Hspec (reverse items)) as [Hp _]. rewrite length_reverse in Hp.
  rewrite Hp.
  pose proof (map_nth_seq_self (reverse (seq 0 (length items)))) as E.
  rewrite length_reverse, length_seq in E.
  rewrite E. apply reverse_Permutation.
Qed.

Lemma sort_values_desc_perm argsort (df : list movie) :
  argsort_spec argsort -> Permutation (sort_values_desc argsort df) df.
Proof.
  intros Hspec. unfold sort_values_desc.
  rewrite (nargsort_desc_perm argsort _ Hspec), length_map.
  apply reflexive_eq, omap_lookup_seq.
Qed.

Lemma lookup_omap_in {A} (l : list A) (ix : list nat) t :
  Forall (fun i => (i < length l)%nat) ix ->
  omap (fun i => l !! i) ix !! t = ix !! t ≫= (fun i => l !! i).
Proof.
  intros Hall. revert t; induction Hall as [|i ix Hi _ IH]; intros t; [reflexivity|].
  destruct (lookup_lt_is_Some_2 l i Hi) as [y Hy].
  simpl. rewrite Hy. destruct t as [|t]; simpl; [rewrite Hy; reflexivity | apply IH].
Qed.

Lemma sort_values_desc_sorted argsort (df : list movie) :
  argsort_spec argsort ->
  sorted_by (fun a b => Qle (IMDB_Rating b) (IMDB_Rating a)) (sort_values_desc argsort df).
Proof.
  intros Hspec. unfold sort_values_desc, nargsort_desc.
  set (items := map IMDB_Rating df).
  set (n := length items).
  assert (Hn : length df = n) by (unfold n, items; rewrite length_map; reflexivity).
  destruct (Hspec (reverse items)) as [Hp Hs].
  set (P := argsort (reverse items)) in *.
  rewrite length_reverse in Hp. fold n in Hp.
  assert (HlenP : length P = n) by (rewrite (Permutation_length Hp), length_seq; reflexivity).
  assert (HinP : forall k, In k P -> (k < n)%nat).
  { intros k Hk. apply (Permutation_in _ Hp), in_seq in Hk. lia. }
  assert (Hkey : forall k, (k < n)%nat ->
            df !! (n - S k)%nat = Some (nth (n - S k) df Sample.A) /\
            nth k (reverse items) 0%Q = IMDB_Rating (nth (n - S k) df Sample.A)).
  { intros k Hk.
    assert (Hd : df !! (n - S k)%nat = Some (nth (n - S k) df Sample.A)).
    { destruct (nth_lookup_or_length df (n - S k) Sample.A) as [E | E]; [exact E | lia]. }
    split; [exact Hd|].
    apply nth_lookup_Some. rewrite reverse_lookup by (unfold n in Hk; exact Hk).
    fold n. unfold items. rewrite lookup_map_std, Hd. reflexivity. }
  set (g := fun k => nth k (reverse (seq 0 n)) 0%nat).
  assert (Hg : forall k, (k < n)%nat -> g k = (n - S k)%nat) by (intros; apply nth_reverse_seq; assumption).
  assert (Hall : Forall (fun i => (i < length df)%nat) (reverse (map g P))).
  { apply Forall_forall. intros i Hi.
    apply elem_of_reverse, list_elem_of_In, in_map_iff in Hi as (k & <- & Hk).
    rewrite Hg by (apply HinP; exact Hk). specialize (HinP k Hk). lia. }
  intros t x y Hx Hy.
  rewrite lookup_omap_in in Hx, Hy by exact Hall.
  assert (Hlen : length (map g P) = n) by (rewrite length_map; exact HlenP).
  destruct (reverse (map g P) !! t) as [i1|] eqn:E1; [|discriminate]. simpl in Hx.
  destruct (reverse (map g P) !! S t) as [i2|] eqn:E2; [|discriminate]. simpl in Hy.
  apply reverse_lookup_Some in E1 as [E1 Ht1]. apply reverse_lookup_Some in E2 as [E2 Ht2].
  rewrite Hlen in E1, E2, Ht1, Ht2.
  rewrite lookup_map_std in E1, E2.
  destruct (P !! (n - S t)%nat) as [k2|] eqn:Ek2; [|discriminate]. injection E1 as <-.
  destruct (P !! (n - S (S t))%nat) as [k1|] eqn:Ek1; [|discriminate]. injection E2 as <-.
  assert (Hk1 : (k1 < n)%nat) by (apply HinP; eapply list_elem_of_In, list_elem_of_lookup_2; exact Ek1).
  assert (Hk2 : (k2 < n)%nat) by (apply HinP; eapply list_elem_of_In, list_elem_of_lookup_2; exact Ek2).
  assert (Hle := Hs (n - S (S t))%nat k1 k2 Ek1).
  replace (S (n - S (S t))) with (n - S t)%nat in Hle by lia.
  specialize (Hle Ek2).
  destruct (Hkey k1 Hk1) as [Hd1 Hr1]. destruct (Hkey k2 Hk2) as [Hd2 Hr2].
  rewrite Hg in Hx, Hy by assumption.
  rewrite Hd2 in Hx. rewrite Hd1 in Hy. injection Hx as <-. injection Hy as <-.
  rewrite <- Hr1, <- Hr2. exact Hle.
Qed.

Lemma Sorted_sorted_by {A} (R : A -> A -> Prop) (l : list A) : Sorted R l -> sorted_by R l.
Proof.
  induction 1 as [|a l _ IH Hhd]; intros i x y Hx Hy; [discriminate|].
  destruct i as [|i].
  - injection Hx as <-. destruct l as [|b l]; [discriminate|].
    injection Hy as <-. inversion Hhd; assumption.
  - exact (IH i x y Hx Hy).
Qed.

Lemma merge_argsort_spec : argsort_spec merge_argsort.
Proof.
  intros v. unfold merge_argsort. split.
  - apply merge_sort_Permutation.
  - apply Sorted_sorted_by, Sorted_merge_sort.
    intros i j. destruct (Qlt_le_dec (nth i v 0%Q) (nth j v 0%Q)) as [H|H].
    + left. apply Qlt_le_weak, H.
    + right. exact H.
Qed.

Lemma rev_merge_argsort_spec : argsort_spec rev_merge_argsort.
Proof.
  intros v. unfold rev_merge_argsort. split.
  - rewrite merge_sort_Permutation. apply reverse_Permutation.
  - apply Sorted_sorted_by, Sorted_merge_sort.
    intros i j. destruct (Qlt_le_dec (nth i v 0%Q) (nth j v 0%Q)) as [H|H].
    + left. apply Qlt_le_weak, H.
    + right. exact H.
Qed.

Lemma main_run_results argsort df genres gs mr ds dc :
  filter_movies df gs mr ds <> [] ->
  main_run argsort (Some (df, genres)) gs mr ds dc =
  Results (length (filter_movies df gs mr ds))
          (match dc with
           | Count n => head n (sort_values_desc argsort (filter_movies df gs mr ds))
           | All => sort_values_desc argsort (filter_movies df gs mr ds)
           end)
          (summarize (int64_column df) (sort_values_desc argsort (filter_movies df gs mr ds))).
Proof.
  intros Hne. unfold main_run.
  destruct (filter_movies df gs mr ds) as [|m l]; [congruence|]. reflexivity.
Qed.

(** The orders of three values. *)
Lemma Permutation_three {A} (a b c : A) (l : list A) :
  Permutation l [a; b; c] ->
  l = [a; b; c] \/ l = [a; c; b] \/ l = [b; a; c] \/ l = [b; c; a] \/ l = [c; a; b] \/ l = [c; b; a].
Proof.
  intros Hp. symmetry in Hp. apply permutations_Permutation, list_elem_of_In in Hp.
  simpl in Hp. intuition congruence.
Qed.

(** ** Claims on ranking, truncation and the summary *)

(** C3 (counterexample): on the generic numpy build, eighteen movies with
    the same rating do not come out in frame order. *)
Lemma main_equal_ratings_reordered :
  Forall (fun m => IMDB_Rating m = 8%Q) Sample.ties /\
  exists page st, main (Some (Sample.ties, ["Drama"])) [] None [] All = Results 18 page st /\
    map Released_Year page =
      [2000; 2001; 2016; 2015; 2014; 2013; 2012; 2011; 2010; 2009; 2008; 2007; 2006;
       2005; 2004; 2003; 2002; 2017] /\
    page <> Sample.ties.
Proof.
  split; [repeat constructor|].
  exists (sort_values_desc NumpySort.argsort Sample.ties),
         (summarize (int64_column Sample.ties) (sort_values_desc NumpySort.argsort Sample.ties)).
  split; [vm_compute; reflexivity|].
  split; [vm_compute; reflexivity|].
  intros H. apply (f_equal (map Released_Year)) in H. vm_compute in H. discriminate H.
Qed.

(** C3 (amended): with "All" selected, [main] shows the filtered rows
    reordered by decreasing rating, for any argsort meeting numpy's
    contract; among equal ratings the order is the argsort's, not the
    frame order in general. *)
Theorem main_ranks_by_rating (argsort : list Q -> list nat) (df : list movie)
    (genres : list string) (gs : list string) (mr : option Z) (ds : list Z) :
  argsort_spec argsort ->
  filter_movies df gs mr ds <> [] ->
  exists page st,
    main_run argsort (Some (df, genres)) gs mr ds All =
      Results (length (filter_movies df gs mr ds)) page st /\
    Permutation page (filter_movies df gs mr ds) /\
    sorted_by (fun a b => Qle (IMDB_Rating b) (IMDB_Rating a)) page.
Proof.
  intros Hspec Hne. rewrite main_run_results by exact Hne.
  eexists _, _. split; [reflexivity|].
  split; [apply sort_values_desc_perm | apply sort_values_desc_sorted]; exact Hspec.
Qed.

Lemma main_ranks_by_rating_witness :
  argsort_spec merge_argsort /\
  exists page st,
    main_run merge_argsort (Some ([Sample.A; Sample.B; Sample.C], [])) [] None [] All =
      Results 3 page st /\
    Permutation page [Sample.A; Sample.B; Sample.C] /\
    sorted_by (fun a b => Qle (IMDB_Rating b) (IMDB_Rating a)) page.
Proof.
  split; [exact merge_argsort_spec|].
  exact (main_ranks_by_rating merge_argsort [Sample.A; Sample.B; Sample.C] [] [] None []
           merge_argsort_spec ltac:(discriminate)).
Defined.

(** C4: the select box offers only 10, 25, 50, 100 and "All", so the
    count [main] truncates with is positive or "All": a zero or negative
    count never reaches [head].  A count [n] keeps the first [n] rows of
    the sorted frame ([head(n)]), at most [n] rows; "All" keeps every
    row. *)
Theorem main_display_count (argsort : list Q -> list nat) (df : list movie)
    (genres : list string) (gs : list string) (mr : option Z) (ds : list Z)
    (dc : display_count) :
  offered dc ->
  filter_movies df gs mr ds <> [] ->
  let f := filter_movies df gs mr ds in
  let s := sort_values_desc argsort f in
  (forall n, dc = Count n -> 0 < n) /\
  exists page,
    main_run argsort (Some (df, genres)) gs mr ds dc =
      Results (length f) page (summarize (int64_column df) s) /\
    ((exists n, dc = Count n /\ page = firstn (Z.to_nat n) s /\ (length page <= Z.to_nat n)%nat) \/
     (dc = All /\ page = s)).
Proof.
  intros Hoff Hne f s.
  assert (Hpos : forall n, dc = Count n -> 0 < n).
  { intros n ->. destruct Hoff as [H | [H | [H | [H | H]]]]; try discriminate H; injection H as ->; lia. }
  split; [exact Hpos|].
  rewrite main_run_results by exact Hne.
  destruct dc as [n|].
  - specialize (Hpos n eq_refl). unfold head. rewrite (proj2 (Z.leb_le 0 n)) by lia.
    eexists. split; [reflexivity|]. left. exists n. split; [reflexivity|].
    split; [reflexivity|]. rewrite length_firstn. lia.
  - eexists. split; [reflexivity|]. right. split; reflexivity.
Qed.

Lemma main_display_count_witness :
  offered (Count 10) /\
  main_run merge_argsort (Some ([Sample.A; Sample.B; Sample.C], [])) [] None [] (Count 10) =
    Results 3 (firstn 10 (sort_values_desc merge_argsort [Sample.A; Sample.B; Sample.C]))
              (summarize (int64_column [Sample.A; Sample.B; Sample.C])
                         (sort_values_desc merge_argsort [Sample.A; Sample.B; Sample.C])).
Proof.
  assert (Ho : offered (Count 10)) by (left; reflexivity).
  split; [exact Ho|].
  destruct (main_display_count merge_argsort [Sample.A; Sample.B; Sample.C] [] [] None []
              (Count 10) Ho ltac:(discriminate)) as [_ (page & Hrun & Hpage)].
  rewrite Hrun. f_equal.
  destruct Hpage as [(n & Hn & -> & _) | [Hd _]]; [injection Hn as <-; reflexivity | discriminate Hd].
Defined.

(** C5 (counterexample): the average rating shown is not the exact mean
    of the ratings: 9.0 and 8.5 have the mean 8.75, and [main] shows
    "8.8", the float64 mean formatted with one decimal (a tie, rounded to
    even). *)
Lemma main_average_rating_rounded :
  map IMDB_Rating [Sample.A; Sample.B] = [9; 17 # 2]%Q /\
  ((9 + (17 # 2)) / 2 == 35 # 4)%Q /\
  exists page st,
    main (Some ([Sample.A; Sample.B], ["Comedy"; "Drama"])) [] None [] (Count 10) =
      Results 2 page st /\
    average_rating st = "8.8".
Proof.
  split; [reflexivity|]. split; [vm_compute; reflexivity|].
  exists (sort_values_desc NumpySort.argsort [Sample.A; Sample.B]),
         (summarize true (sort_values_desc NumpySort.argsort [Sample.A; Sample.B])).
  split; vm_compute; reflexivity.
Qed.

(** C5 (amended): for a non-empty result the statistics are computed on
    all the filtered rows, in rating order, not on the page, and are the
    same for every display count.  The average rating shown is pandas'
    float64 mean of the filtered ratings formatted with one decimal, not
    their exact mean; ratings 9.0, 8.0 and 7.0 show "8.0" whatever the
    order of the sort.  The average runtime is the float64 mean of
    [Runtime_Minutes], NaN left out of the count, formatted with no
    decimal; the total is the number of filtered rows. *)
Theorem main_summary_full_set (argsort : list Q -> list nat) (df : list movie)
    (genres : list string) (gs : list string) (mr : option Z) (ds : list Z)
    (dc : display_count) :
  argsort_spec argsort ->
  filter_movies df gs mr ds <> [] ->
  let f := filter_movies df gs mr ds in
  exists page st l,
    main_run argsort (Some (df, genres)) gs mr ds dc = Results (length f) page st /\
    (forall dc', exists page',
       main_run argsort (Some (df, genres)) gs mr ds dc' = Results (length f) page' st) /\
    Permutation l f /\
    average_rating st = format_fixed 1 (F64.mean (map (fun m => F64.of_Q (IMDB_Rating m)) l)) /\
    average_runtime st =
      String.append (format_fixed 0 (runtime_mean (int64_column df) (map Runtime_Minutes l))) " min" /\
    total_movies st = length f /\
    (map IMDB_Rating f = [9; 8; 7]%Q -> average_rating st = "8.0").
Proof.
  intros Hspec Hne f.
  pose proof (sort_values_desc_perm argsort f Hspec) as Hp.
  exists (match dc with
          | Count n => head n (sort_values_desc argsort f)
          | All => sort_values_desc argsort f
          end),
         (summarize (int64_column df) (sort_values_desc argsort f)),
         (sort_values_desc argsort f).
  split; [apply main_run_results, Hne|].
  split; [intros dc'; eexists; apply main_run_results, Hne|].
  split; [exact Hp|].
  split; [reflexivity|]. split; [reflexivity|].
  split; [apply Permutation_length, Hp|].
  intros H987. cbn [average_rating summarize].
  rewrite <- (map_map IMDB_Rating F64.of_Q).
  assert (Hr : Permutation (map IMDB_Rating (sort_values_desc argsort f)) [9; 8; 7]%Q)
    by (rewrite <- H987; apply Permutation_map, Hp).
  destruct (Permutation_three _ _ _ _ Hr) as [E | [E | [E | [E | [E | E]]]]];
    rewrite E; vm_compute; reflexivity.
Qed.

Lemma main_summary_full_set_witness :
  exists page st,
    main_run merge_argsort (Some ([Sample.A; Sample.B; Sample.C], [])) [] None [] (Count 1) =
      Results 3 page st /\
    average_rating st = "8.2" /\ average_runtime st = "108 min" /\ total_movies st = 3%nat.
Proof.
  destruct (main_summary_full_set merge_argsort [Sample.A; Sample.B; Sample.C] [] [] None []
              (Count 1) merge_argsort_spec ltac:(discriminate))
    as (page & st & l & Hrun & _ & _ & _ & _ & Hn & _).
  exists page, st. split; [exact Hrun|].
  vm_compute in Hrun. injection Hrun as _ <-.
  split; [reflexivity | split; reflexivity].
Defined.

(** C6 (counterexample): criteria that match nothing produce no page and
    no summary: [main] warns and returns before ranking. *)
Lemma main_zero_matches_no_summary :
  main (Some ([Sample.A; Sample.B; Sample.C], ["Comedy"; "Drama"])) ["Western"] None [] (Count 10) =
    NoMatches 0 /\
  forall page st,
    main (Some ([Sample.A; Sample.B; Sample.C], ["Comedy"; "Drama"])) ["Western"] None [] (Count 10)
      <> Results 0 page st.
Proof. split; [reflexivity | intros page st; discriminate]. Qed.

(** C6 (amended): when the criteria match no row of a loaded frame,
    [main] reports 0 movies found and stops with a warning, before ranking
    and before any statistic is computed; nothing is raised, and this
    outcome differs from the stop after a failed load. *)
Theorem main_zero_matches (argsort : list Q -> list nat) (df : list movie)
    (genres : list string) (gs : list string) (mr : option Z) (ds : list Z)
    (dc : display_count) :
  filter_movies df gs mr ds = [] ->
  main_run argsort (Some (df, genres)) gs mr ds dc = NoMatches 0 /\
  main_run argsort None gs mr ds dc = LoadStopped /\
  NoMatches 0 <> LoadStopped.
Proof.
  intros Hnil. unfold main_run. rewrite Hnil.
  split; [reflexivity | split; [reflexivity | discriminate]].
Qed.

Lemma main_zero_matches_witness :
  main_run NumpySort.argsort (Some ([Sample.A; Sample.B; Sample.C], [])) ["Western"] None [] All =
    NoMatches 0.
Proof.
  exact (proj1 (main_zero_matches NumpySort.argsort [Sample.A; Sample.B; Sample.C] [] ["Western"]
                  None [] All eq_refl)).
Defined.

(** * Further properties of the code *)

(** ** The loader keeps the CSV rows *)

Lemma zip_with_prepare_fields rows mins :
  Forall2 (fun r n => runtime_cell (raw_Runtime r) = Some n) rows mins ->
  map (fun m => (Series_Title m, Released_Year m, Runtime m, Genre m, IMDB_Rating m))
      (zip_with prepare_row rows mins) =
  map (fun r => (raw_Series_Title r, raw_Released_Year r, raw_Runtime r, raw_Genre r,
                 raw_IMDB_Rating r)) rows /\
  Forall2 (fun r m => Runtime_Minutes m = runtime_cell (raw_Runtime r))
          rows (zip_with prepare_row rows mins).
Proof.
  induction 1 as [|r n rs ns Hrn _ [IH1 IH2]]; simpl; [split; constructor|].
  rewrite IH1. split; [reflexivity|]. constructor; [simpl; rewrite Hrn; reflexivity | exact IH2].
Qed.

(** X2: the frame returned by [load_data] has one row per CSV row, in the
    same order, with title, year, runtime text, genre text and rating
    unchanged; [Runtime_Minutes] is the number parsed from the row's
    runtime text. *)
Theorem load_data_keeps_rows (rows : list raw_row) (df : list movie) (genres : list string) :
  load_data (Some rows) = Some (df, genres) ->
  map (fun m => (Series_Title m, Released_Year m, Runtime m, Genre m, IMDB_Rating m)) df =
  map (fun r => (raw_Series_Title r, raw_Released_Year r, raw_Runtime r, raw_Genre r,
                 raw_IMDB_Rating r)) rows /\
  Forall2 (fun r m => Runtime_Minutes m = runtime_cell (raw_Runtime r)) rows df.
Proof.
  simpl. destruct (runtime_column rows) as [mins|] eqn:E; [|discriminate].
  intros H; injection H as <- _.
  apply zip_with_prepare_fields, runtime_column_spec, E.
Qed.

Lemma load_data_keeps_rows_witness :
  load_data (Some [Sample.row_A; Sample.row_B]) = Some ([Sample.A; Sample.B], ["Comedy"; "Drama"]) /\
  map (fun m => (Series_Title m, Released_Year m, Runtime m, Genre m, IMDB_Rating m)) [Sample.A; Sample.B] =
  map (fun r => (raw_Series_Title r, raw_Released_Year r, raw_Runtime r, raw_Genre r,
                 raw_IMDB_Rating r)) [Sample.row_A; Sample.row_B].
Proof.
  split; [reflexivity|].
  exact (proj1 (load_data_keeps_rows [Sample.row_A; Sample.row_B] [Sample.A; Sample.B]
                  ["Comedy"; "Drama"] eq_refl)).
Defined.

(** ** The runtime regex *)

Lemma take_run_app (d b : list Z) :
  Forall (fun x => Str.is_digit x = true) d ->
  match b with [] => True | x :: _ => Str.is_digit x = false end ->
  Str.take_run (d ++ b) = d.
Proof.
  intros Hd Hb. induction Hd as [|x d Hx _ IH]; simpl.
  - destruct b as [|x b]; [reflexivity|]. simpl. rewrite Hb. reflexivity.
  - rewrite Hx, IH. reflexivity.
Qed.

(** X4: the runtime cast reads the leftmost maximal run of [\d] digits
    of the decoded cell: when the code points of a cell are [a ++ d ++ b]
    where [a] has no digit, [d] is a non-empty run of digits (of any
    script) and [b] does not start with a digit, the regex matches [d],
    and the cell becomes [int(d)] when [d] has at most 4300 digits and
    its value fits in an int64, and fails otherwise. *)
Theorem runtime_cell_leftmost_run (s : string) (a d b : list Z) :
  Str.utf8_decode s = (a ++ d ++ b)%list ->
  Forall (fun x => Str.is_digit x = false) a ->
  d <> [] ->
  Forall (fun x => Str.is_digit x = true) d ->
  match b with [] => True | x :: _ => Str.is_digit x = false end ->
  Str.extract_digits s = Some d /\
  runtime_cell (Some s) =
    (if Nat.leb (length d) int_max_str_digits && Z.leb (int_of_digits d) int64_max
     then Some (int_of_digits d) else None).
Proof.
  intros Hs Ha Hne Hd Hb.
  assert (He : Str.extract_digits s = Some d).
  { unfold Str.extract_digits. rewrite Hs. clear Hs.
    induction Ha as [|x a Hx _ IH]; simpl.
    - destruct d as [|x d]; [congruence|].
      inversion Hd as [|? ? Hx _]; subst. cbn [app Str.search_digits]. rewrite Hx.
      exact (f_equal Some (take_run_app (x :: d) b Hd Hb)).
    - rewrite Hx. exact IH. }
  split; [exact He|]. unfold runtime_cell. rewrite He. reflexivity.
Qed.

Lemma runtime_cell_leftmost_run_witness :
  runtime_cell (Some (string_of_list_ascii
    (map ascii_of_nat [217; 161; 217; 162; 217; 160; 32; 109; 105; 110]%nat))) = Some 120.
Proof.
  rewrite (proj2 (runtime_cell_leftmost_run
    (string_of_list_ascii (map ascii_of_nat [217; 161; 217; 162; 217; 160; 32; 109; 105; 110]%nat))
    [] [1633; 1634; 1632] [32; 109; 105; 110]
    ltac:(vm_compute; reflexivity) ltac:(constructor) ltac:(discriminate)
    ltac:(repeat constructor) ltac:(reflexivity))).
  vm_compute. reflexivity.
Defined.

(** ** Splitting and stripping *)

Lemma split_on_cons (sep : ascii) (s : string) : exists p ps, Str.split_on sep s = p :: ps.
Proof.
  induction s as [|c s (p & ps & IH)]; simpl; [eexists _, _; reflexivity|].
  rewrite IH. destruct (Ascii.eqb c sep); eexists _, _; reflexivity.
Qed.

Lemma concat_cons_char (sep : string) (c : ascii) (p : string) (ps : list string) :
  String.concat sep (String c p :: ps) = String c (String.concat sep (p :: ps)).
Proof. destruct ps; reflexivity. Qed.

(** X5: [s.split(',')] loses nothing: joining the pieces with the
    separator gives back [s], and no piece contains the separator. *)
Theorem split_on_join (sep : ascii) (s : string) :
  String.concat (String sep EmptyString) (Str.split_on sep s) = s /\
  Forall (fun p => ~ In sep (list_ascii_of_string p)) (Str.split_on sep s).
Proof.
  induction s as [|c s [IH1 IH2]]; simpl.
  - split; [reflexivity | repeat constructor; simpl; tauto].
  - destruct (Str.split_on sep s) as [|p ps] eqn:E; [destruct (split_on_cons sep s) as (? & ? & H); congruence|].
    destruct (Ascii.eqb c sep) eqn:Ec.
    + apply Ascii.eqb_eq in Ec. subst c. split.
      * transitivity (String sep (String.concat (String sep EmptyString) (p :: ps)));
          [reflexivity | rewrite IH1; reflexivity].
      * constructor; [simpl; tauto | exact IH2].
    + apply Ascii.eqb_neq in Ec. split.
      * rewrite concat_cons_char, IH1. reflexivity.
      * inversion IH2 as [|? ? Hp Hps]; subst.
        constructor; [|exact Hps]. simpl. intros [H | H]; [congruence | tauto].
Qed.

Module StripFacts.
Import Str.






Lemma genre_tokens_nonempty (s : string) : genre_tokens s <> [].
Proof.
  unfold genre_tokens. destruct (split_on_cons "," s) as (p & ps & ->). discriminate.
Qed.

End StripFacts.

(** ** Sorted insertion *)

Section SortedInsert.
Context {A : Type} (eqb ltb : A -> A -> bool) (ins : A -> list A -> list A).
Hypothesis eqb_iff : forall x y, eqb x y = true <-> x = y.
Hypothesis ltb_trans : forall x y z, ltb x y = true -> ltb y z = true -> ltb x z = true.
Hypothesis ltb_total : forall x y, x <> y -> ltb x y = false -> ltb y x = true.
Hypothesis ins_nil : forall x, ins x [] = [x].
Hypothesis ins_cons : forall x y l,
  ins x (y :: l) = if eqb x y then y :: l else if ltb x y then x :: y :: l else y :: ins x l.

Lemma ins_In x l y : In y (ins x l) <-> y = x \/ In y l.
Proof.
  induction l as [|z l IH]; [rewrite ins_nil; simpl; intuition congruence|].
  rewrite ins_cons. destruct (eqb x z) eqn:E.
  - apply eqb_iff in E. subst. simpl. intuition congruence.
  - destruct (ltb x z); simpl; [intuition congruence|]. rewrite IH. intuition congruence.
Qed.

Lemma ins_sorted x l :
  StronglySorted (fun a b => ltb a b = true) l -> StronglySorted (fun a b => ltb a b = true) (ins x l).
Proof.
  induction 1 as [|z l Hl IH Hz]; [rewrite ins_nil; repeat constructor|].
  rewrite ins_cons. destruct (eqb x z) eqn:E; [constructor; assumption|].
  assert (Hxz : x <> z) by (intros ->; assert (eqb z z = true) by (apply eqb_iff; reflexivity); congruence).
  destruct (ltb x z) eqn:L.
  - constructor; [constructor; assumption|].
    constructor; [exact L|]. eapply Forall_impl; [exact Hz|]. intros w Hw. eapply ltb_trans; eassumption.
  - constructor; [exact IH|]. apply List.Forall_forall. intros w Hw. apply ins_In in Hw as [-> | Hw].
    + apply ltb_total; [congruence | exact L].
    + rewrite List.Forall_forall in Hz. apply Hz, Hw.
Qed.

Lemma fold_ins_In xs acc y :
  In y (fold_left (fun acc x => ins x acc) xs acc) <-> In y xs \/ In y acc.
Proof.
  revert acc; induction xs as [|x xs IH]; intros acc; simpl; [tauto|].
  rewrite IH, ins_In. intuition congruence.
Qed.

Lemma fold_ins_sorted xs acc :
  StronglySorted (fun a b => ltb a b = true) acc ->
  StronglySorted (fun a b => ltb a b = true) (fold_left (fun acc x => ins x acc) xs acc).
Proof.
  revert acc; induction xs as [|x xs IH]; intros acc H; simpl; [exact H|].
  apply IH, ins_sorted, H.
Qed.

End SortedInsert.

Lemma str_compare_refl (s : string) : String.compare s s = Eq.
Proof.
  induction s as [|c s IH]; simpl; [reflexivity|].
  unfold Ascii.compare. rewrite N.compare_refl. exact IH.
Qed.

Lemma str_compare_lt_trans (a b c : string) :
  String.compare a b = Lt -> String.compare b c = Lt -> String.compare a c = Lt.
Proof.
  revert b c; induction a as [|x a IH]; intros [|y b] [|z c]; simpl; try discriminate; auto.
  destruct (Ascii.compare x y) eqn:E1; try discriminate;
  destruct (Ascii.compare y z) eqn:E2; try discriminate; intros H1 H2.
  - apply Ascii.compare_eq_iff in E1, E2. subst. unfold Ascii.compare at 1. rewrite N.compare_refl.
    exact (IH b c H1 H2).
  - apply Ascii.compare_eq_iff in E1. subst. rewrite E2. reflexivity.
  - apply Ascii.compare_eq_iff in E2. subst. rewrite E1. reflexivity.
  - assert (E : Ascii.compare x z = Lt).
    { unfold Ascii.compare in *. rewrite N.compare_lt_iff in E1, E2. apply N.compare_lt_iff. lia. }
    rewrite E. reflexivity.
Qed.

Lemma str_ltb_trans (a b c : string) :
  Str.str_ltb a b = true -> Str.str_ltb b c = true -> Str.str_ltb a c = true.
Proof.
  unfold Str.str_ltb.
  destruct (String.compare a b) eqn:E1; try discriminate.
  destruct (String.compare b c) eqn:E2; try discriminate.
  rewrite (str_compare_lt_trans a b c E1 E2). reflexivity.
Qed.

Lemma str_ltb_total (a b : string) : a <> b -> Str.str_ltb a b = false -> Str.str_ltb b a = true.
Proof.
  unfold Str.str_ltb. intros Hne H.
  pose proof (String.compare_antisym a b) as Hab.
  destruct (String.compare a b) eqn:E; try discriminate.
  - apply String.compare_eq_iff in E. congruence.
  - destruct (String.compare b a); simpl in Hab; congruence.
Qed.

Ltac ins_hyps :=
  first [ exact String.eqb_eq | exact str_ltb_trans | exact str_ltb_total
        | exact Z.eqb_eq
        | intros ? ? ? H1 H2; apply Z.ltb_lt; apply Z.ltb_lt in H1, H2; lia
        | intros ? ? H1 H2; apply Z.ltb_lt; apply Z.ltb_ge in H2; lia
        | intros; reflexivity ].

Lemma tokens_fold_In (toks acc : list string) (g : string) :
  In g (fold_left (fun acc' g => Str.insert_sorted g acc') toks acc) <-> In g toks \/ In g acc.
Proof. apply (fold_ins_In String.eqb Str.str_ltb); ins_hyps. Qed.

Lemma tokens_fold_sorted (toks acc : list string) :
  StronglySorted (fun a b => Str.str_ltb a b = true) acc ->
  StronglySorted (fun a b => Str.str_ltb a b = true)
                 (fold_left (fun acc' g => Str.insert_sorted g acc') toks acc).
Proof. apply (fold_ins_sorted String.eqb Str.str_ltb); ins_hyps. Qed.

Lemma genre_vocabulary_fold (rows : list raw_row) (acc : list string) :
  (StronglySorted (fun a b => Str.str_ltb a b = true) acc ->
   StronglySorted (fun a b => Str.str_ltb a b = true)
     (fold_left (fun acc r =>
        match raw_Genre r with
        | None => acc
        | Some s => fold_left (fun acc' g => Str.insert_sorted g acc') (genre_tokens s) acc
        end) rows acc)) /\
  (forall g, In g (fold_left (fun acc r =>
        match raw_Genre r with
        | None => acc
        | Some s => fold_left (fun acc' g => Str.insert_sorted g acc') (genre_tokens s) acc
        end) rows acc) <->
   In g acc \/ exists r s, In r rows /\ raw_Genre r = Some s /\ In g (genre_tokens s)).
Proof.
  revert acc; induction rows as [|r rs IH]; intros acc; simpl.
  - split; [tauto|]. intros g. split; [tauto|]. intros [H | (r & s & [] & _)]. exact H.
  - destruct (IH (match raw_Genre r with
                  | None => acc
                  | Some s => fold_left (fun acc' g => Str.insert_sorted g acc') (genre_tokens s) acc
                  end)) as [IHs IHin].
    split.
    + intros Hs. apply IHs. destruct (raw_Genre r); [apply tokens_fold_sorted|]; exact Hs.
    + intros g. rewrite IHin. destruct (raw_Genre r) as [s|] eqn:Er.
      * rewrite tokens_fold_In. split.
        -- intros [[Ht | Ha] | (r' & s' & Hr' & Hs' & Ht')].
           ++ right. exists r, s. auto.
           ++ left. exact Ha.
           ++ right. exists r', s'. auto.
        -- intros [Ha | (r' & s' & [<- | Hr'] & Hs' & Ht')].
           ++ left. right. exact Ha.
           ++ left. left. rewrite Er in Hs'. injection Hs' as <-. exact Ht'.
           ++ right. exists r', s'. auto.
      * split.
        -- intros [Ha | (r' & s' & Hr' & Hs' & Ht')]; [left; exact Ha|].
           right. exists r', s'. auto.
        -- intros [Ha | (r' & s' & [<- | Hr'] & Hs' & Ht')]; [left; exact Ha | congruence |].
           right. exists r', s'. auto.
Qed.

(** The frame of [load_data] copies the CSV columns of its rows. *)
Lemma load_data_fields (rows : list raw_row) (df : list movie) (genres : list string) :
  load_data (Some rows) = Some (df, genres) ->
  map (fun m => (Series_Title m, Released_Year m, Runtime m, Genre m, IMDB_Rating m)) df =
  map (fun r => (raw_Series_Title r, raw_Released_Year r, raw_Runtime r, raw_Genre r,
                 raw_IMDB_Rating r)) rows /\
  genres = genre_vocabulary rows.
Proof.
  simpl. destruct (runtime_column rows) as [mins|] eqn:E; [|discriminate].
  intros H; injection H as <- <-. split; [|reflexivity].
  apply (proj1 (zip_with_prepare_fields rows mins (runtime_column_spec _ _ E))).
Qed.

Lemma load_data_genre_cells (rows : list raw_row) (df : list movie) (genres : list string) (s : string) :
  load_data (Some rows) = Some (df, genres) ->
  (exists m, In m df /\ Genre m = Some s) <-> (exists r, In r rows /\ raw_Genre r = Some s).
Proof.
  intros H. destruct (load_data_fields rows df genres H) as [Hmap _].
  apply (f_equal (map (fun t => snd (fst t)))) in Hmap. rewrite !map_map in Hmap. simpl in Hmap.
  change (map Genre df = map raw_Genre rows) in Hmap.
  split.
  - intros (m & Hm & Hg). assert (Hin : In (Some s) (map Genre df)) by (apply in_map_iff; eauto).
    rewrite Hmap in Hin. apply in_map_iff in Hin as (r & Hr & Hin). eauto.
  - intros (r & Hr & Hg). assert (Hin : In (Some s) (map raw_Genre rows)) by (apply in_map_iff; eauto).
    rewrite <- Hmap in Hin. apply in_map_iff in Hin as (m & Hm & Hin). eauto.
Qed.

Lemma load_data_genres_In (rows : list raw_row) (df : list movie) (genres : list string) (g : string) :
  load_data (Some rows) = Some (df, genres) ->
  In g genres <-> exists m s, In m df /\ Genre m = Some s /\ In g (genre_tokens s).
Proof.
  intros H. rewrite (proj2 (load_data_fields rows df genres H)). unfold genre_vocabulary.
  rewrite (proj2 (genre_vocabulary_fold rows [])). split.
  - intros [[] | (r & s & Hr & Hs & Ht)].
    destruct (proj2 (load_data_genre_cells rows df genres s H) (ex_intro _ r (conj Hr Hs)))
      as (m & Hm & Hg).
    exists m, s. auto.
  - intros (m & s & Hm & Hg & Ht). right.
    destruct (proj1 (load_data_genre_cells rows df genres s H) (ex_intro _ m (conj Hm Hg)))
      as (r & Hr & Hs).
    exists r, s. auto.
Qed.





(** ** Selecting every option *)

Lemma sublist_In {A} (l1 l2 : list A) x : l1 `sublist_of` l2 -> In x l1 -> In x l2.
Proof.
  induction 1 as [|y l1 l2 _ IH|y l1 l2 _ IH]; simpl; [tauto| |]; intros H.
  - destruct H as [-> | H]; [left; reflexivity | right; apply IH, H].
  - right. apply IH, H.
Qed.

Lemma filter_all_true {A} (f : A -> bool) (l : list A) :
  (forall x, In x l -> f x = true) -> List.filter f l = l.
Proof.
  induction l as [|x l IH]; intros H; simpl; [reflexivity|].
  rewrite (H x (or_introl eq_refl)), IH; [reflexivity|]. intros y Hy. apply H. right. exact Hy.
Qed.

Lemma genre_runtime_sublist gs mr (df : list movie) :
  runtime_step mr (genre_step gs df) `sublist_of` df.
Proof.
  assert (H1 : genre_step gs df `sublist_of` df) by (destruct gs; [reflexivity | apply filter_sublist]).
  unfold runtime_step. destruct (truthy_runtime mr); [|exact H1].
  etransitivity; [apply filter_sublist | exact H1].
Qed.

(** X8: when the user selects every genre that [load_data] offers (and
    there is at least one), the genre filter removes exactly the rows
    whose [Genre] is missing: the result is that of no genre selection on
    the rows that have a genre. *)
Theorem filter_movies_all_genres (rows : list raw_row) (df : list movie) (genres : list string)
    (mr : option Z) (ds : list Z) :
  load_data (Some rows) = Some (df, genres) ->
  genres <> [] ->
  filter_movies df genres mr ds =
  filter_movies (List.filter (fun m => match Genre m with Some _ => true | None => false end) df) [] mr ds.
Proof.
  intros H Hne. rewrite !filter_movies_steps.
  assert (Hg : genre_step genres df = List.filter (fun m => match Genre m with Some _ => true | None => false end) df).
  { assert (Hmask : forall m, In m df -> genre_mask genres m = match Genre m with Some _ => true | None => false end).
    { intros m Hm. unfold genre_mask. destruct (Genre m) as [s|] eqn:Hs; [|reflexivity].
      simpl. apply existsb_exists.
      destruct (genre_tokens s) as [|t ts] eqn:Ht; [destruct (StripFacts.genre_tokens_nonempty s Ht)|].
      exists t. split.
      - apply (load_data_genres_In rows df genres t H). exists m, s. rewrite Ht. auto with datatypes.
      - apply StrFacts.genre_token_contained. rewrite Ht. left. reflexivity. }
    destruct genres as [|g0 gs0]; [congruence|].
    apply filter_ext_in. exact Hmask. }
  rewrite Hg. reflexivity.
Qed.

Lemma filter_movies_all_genres_witness :
  load_data (Some [Sample.row_A; Sample.row_B]) = Some ([Sample.A; Sample.B], ["Comedy"; "Drama"]) /\
  filter_movies [Sample.A; Sample.B] ["Comedy"; "Drama"] None [] =
  filter_movies (List.filter (fun m => match Genre m with Some _ => true | None => false end) [Sample.A; Sample.B]) [] None [].
Proof.
  split; [reflexivity|].
  apply (filter_movies_all_genres [Sample.row_A; Sample.row_B]); [reflexivity | discriminate].
Defined.

(** ** The runtime ceiling *)

Lemma filter_filter_andb {A} (f g : A -> bool) (l : list A) :
  List.filter f (List.filter g l) = List.filter (fun x => g x && f x) l.
Proof.
  induction l as [|x l IH]; simpl; [reflexivity|].
  destruct (g x); simpl; [destruct (f x); simpl; rewrite IH; reflexivity | exact IH].
Qed.

Lemma filter_true_id {A} (l : list A) : List.filter (fun _ => true) l = l.
Proof. apply filter_all_true. reflexivity. Qed.

Lemma filter_ext_fun {A} (f g : A -> bool) (l : list A) :
  (forall x, f x = g x) -> List.filter f l = List.filter g l.
Proof. intros H. apply filter_ext_in. intros x _. apply H. Qed.

Lemma filter_movies_keep (df : list movie) gs mr ds :
  filter_movies df gs mr ds = List.filter (keep gs mr ds) df.
Proof.
  rewrite filter_movies_steps.
  assert (E1 : genre_step gs df =
               List.filter (fun m => match gs with [] => true | _ => genre_mask gs m end) df)
    by (destruct gs; [symmetry; apply filter_true_id | reflexivity]).
  assert (E2 : forall l, runtime_step mr l =
               List.filter (fun m => match truthy_runtime mr with
                                     | None => true | Some k => runtime_mask k m end) l)
    by (intros l; unfold runtime_step; destruct (truthy_runtime mr); [reflexivity | symmetry; apply filter_true_id]).
  assert (E3 : forall l, decade_step ds l =
               List.filter (fun m => match ds with [] => true | _ => decade_mask ds m end) l)
    by (intros l; destruct ds; [symmetry; apply filter_true_id | reflexivity]).
  rewrite E1, E2, E3, !filter_filter_andb.
  apply filter_ext_fun. intros m. unfold keep. apply andb_assoc.
Qed.

(** X11: every ceiling the sidebar can produce ("Under 2 hours" or a
    slider value) lies in [60, 300], so the [if max_runtime:] test never
    skips it: the result is the result without a ceiling, restricted to
    the rows whose [Runtime_Minutes] is present and at most the ceiling.
    Only "Any length" gives no ceiling. *)
Theorem sidebar_runtime_ceiling (o : runtime_option) (df : list movie) (gs : list string)
    (ds : list Z) :
  (forall v, o = CustomMax v -> slider_ok v) ->
  (max_runtime_of o = None <-> o = AnyLength) /\
  (forall k, max_runtime_of o = Some k ->
     60 <= k <= 300 /\
     filter_movies df gs (Some k) ds = List.filter (runtime_mask k) (filter_movies df gs None ds)).
Proof.
  intros Hs. split; [destruct o; simpl; split; congruence|].
  intros k Hk. assert (Hb : 60 <= k <= 300).
  { destruct o as [| |v]; simpl in Hk; try discriminate.
    - injection Hk as <-. lia.
    - injection Hk as <-. apply (Hs v eq_refl). }
  split; [exact Hb|].
  rewrite !filter_movies_keep, filter_filter_andb. apply filter_ext_fun. intros m.
  unfold keep, truthy_runtime. rewrite (proj2 (Z.eqb_neq k 0)) by lia.
  destruct (match gs with [] => true | _ => genre_mask gs m end),
           (match ds with [] => true | _ => decade_mask ds m end), (runtime_mask k m); reflexivity.
Qed.

Lemma sidebar_runtime_ceiling_witness :
  slider_ok 90 /\
  filter_movies [Sample.A; Sample.B; Sample.C] [] (Some 90) [] =
  List.filter (runtime_mask 90) (filter_movies [Sample.A; Sample.B; Sample.C] [] None []).
Proof.
  split; [unfold slider_ok; split; [lia | reflexivity]|].
  refine (proj2 (proj2 (sidebar_runtime_ceiling (CustomMax 90) [Sample.A; Sample.B; Sample.C] [] [] _) 90 eq_refl)).
  intros v Hv. injection Hv as <-. unfold slider_ok. split; [lia | reflexivity].
Defined.

(** ** Result pages *)

Lemma main_run_results_inv argsort df genres gs mr ds dc found page st :
  main_run argsort (Some (df, genres)) gs mr ds dc = Results found page st ->
  filter_movies df gs mr ds <> [] /\ found = length (filter_movies df gs mr ds) /\
  page = match dc with
         | Count n => head n (sort_values_desc argsort (filter_movies df gs mr ds))
         | All => sort_values_desc argsort (filter_movies df gs mr ds)
         end /\
  st = summarize (int64_column df) (sort_values_desc argsort (filter_movies df gs mr ds)).
Proof.
  intros H.
  assert (Hne : filter_movies df gs mr ds <> []).
  { intros E. unfold main_run in H. rewrite E in H. discriminate. }
  rewrite main_run_results in H by exact Hne. injection H as <- <- <-. auto.
Qed.

Lemma sort_values_desc_In argsort (f : list movie) m :
  In m (sort_values_desc argsort f) -> In m f.
Proof.
  unfold sort_values_desc. intros H. apply list_elem_of_In, list_elem_of_omap in H as (i & _ & Hi).
  apply list_elem_of_In. eapply list_elem_of_lookup_2. exact Hi.
Qed.

Lemma In_firstn_l {A} n (l : list A) x : In x (firstn n l) -> In x l.
Proof. intros H. rewrite <- (firstn_skipn n l). apply in_or_app. left. exact H. Qed.

Module SortLength.
Import NumpySort.

Lemma set_length a i x : length (set a i x) = length a.
Proof. apply length_insert. Qed.

Lemma swap_length a i j : length (swap a i j) = length a.
Proof. unfold swap. rewrite !set_length. reflexivity. Qed.

Lemma cond_swap_length (c : bool) a i j : length (if c then swap a i j else a) = length a.
Proof. destruct c; [apply swap_length | reflexivity]. Qed.

Section WithValues.
Variable v : list Q.

Lemma partition_length fuel : forall a pi pj vp, length (fst (partition v fuel a pi pj vp)) = length a.
Proof.
  induction fuel as [|f IH]; intros a pi pj vp; [reflexivity|]. cbn [partition].
  destruct (Z.leb _ _); [reflexivity|]. rewrite IH. apply swap_length.
Qed.

Lemma quick_loop_length fuel : forall a pl pr cdepth stack,
  length (fst (fst (fst (fst (quick_loop v fuel a pl pr cdepth stack))))) = length a.
Proof.
  induction fuel as [|f IH]; intros a pl pr cdepth stack; [reflexivity|]. cbn [quick_loop].
  destruct (Z.ltb SMALL_QUICKSORT (pr - pl)); [|reflexivity].
  match goal with |- context [partition v ?fu ?a0 ?l0 ?j0 ?p0] =>
    pose proof (partition_length fu a0 l0 j0 p0) as HL;
    destruct (partition v fu a0 l0 j0 p0) as [a1 pi] end.
  simpl in HL. rewrite swap_length, !cond_swap_length in HL.
  destruct (Z.ltb _ _); rewrite IH, swap_length; exact HL.
Qed.

Lemma shift_right_length fuel : forall a pl pj vp, length (fst (shift_right v fuel a pl pj vp)) = length a.
Proof.
  induction fuel as [|f IH]; intros a pl pj vp; [reflexivity|]. cbn [shift_right].
  destruct (_ && _); [rewrite IH; apply set_length | reflexivity].
Qed.

Lemma insertion_length fuel : forall a pl pr pi, length (insertion v fuel a pl pr pi) = length a.
Proof.
  induction fuel as [|f IH]; intros a pl pr pi; [reflexivity|]. cbn [insertion].
  destruct (Z.leb pi pr); [|reflexivity].
  pose proof (shift_right_length (S f) a pl pi (val v (get a pi))) as HL.
  destruct (shift_right v (S f) a pl pi (val v (get a pi))) as [a' pj].
  simpl in HL. rewrite IH, set_length. exact HL.
Qed.

Lemma sift_length fuel : forall a base n tmp i j, length (fst (sift v fuel a base n tmp i j)) = length a.
Proof.
  induction fuel as [|f IH]; intros a base n tmp i j; [reflexivity|]. cbn [sift].
  destruct (Z.leb j n); [|reflexivity].
  destruct (less _ _); [rewrite IH; apply set_length | reflexivity].
Qed.

Lemma heapify_length fuel : forall a base n l, length (heapify v fuel a base n l) = length a.
Proof.
  induction fuel as [|f IH]; intros a base n l; [reflexivity|]. cbn [heapify].
  destruct (Z.ltb 0 l); [|reflexivity].
  pose proof (sift_length (S f) a base n (get a (base + l)) l (2 * l)) as HL.
  destruct (sift v (S f) a base n (get a (base + l)) l (2 * l)) as [a' i].
  simpl in HL. rewrite IH, set_length. exact HL.
Qed.

Lemma sortdown_length fuel : forall a base n, length (sortdown v fuel a base n) = length a.
Proof.
  induction fuel as [|f IH]; intros a base n; [reflexivity|]. cbn [sortdown].
  destruct (Z.ltb 1 n); [|reflexivity].
  match goal with |- context [sift v ?fu ?a0 ?b0 ?n0 ?t0 1 2] =>
    pose proof (sift_length fu a0 b0 n0 t0 1 2) as HL;
    destruct (sift v fu a0 b0 n0 t0 1 2) as [a' i] end.
  simpl in HL. rewrite set_length in HL. rewrite IH, set_length. exact HL.
Qed.

Lemma outer_length fuel : forall a pl pr cdepth stack, length (outer v fuel a pl pr cdepth stack) = length a.
Proof.
  induction fuel as [|f IH]; intros a pl pr cdepth stack; [reflexivity|]. cbn [outer].
  destruct (Z.ltb cdepth 0).
  - destruct stack as [|[[pl' pr'] d] stack'];
      [|rewrite IH]; unfold aheapsort; rewrite sortdown_length, heapify_length; reflexivity.
  - pose proof (quick_loop_length (S f) a pl pr cdepth stack) as HL.
    destruct (quick_loop v (S f) a pl pr cdepth stack) as [[[[a1 pl1] pr1] cd1] st1].
    simpl in HL.
    destruct st1 as [|[[pl' pr'] d] stack']; [|rewrite IH]; rewrite insertion_length; exact HL.
Qed.

End WithValues.

Lemma argsort_length (v : list Q) : length (argsort v) = length v.
Proof.
  unfold argsort, aquicksort. rewrite length_map, outer_length, length_map, length_seq. reflexivity.
Qed.

End SortLength.

Lemma length_omap_le {A B} (f : A -> option B) (l : list A) : (length (omap f l) <= length l)%nat.
Proof.
  induction l as [|x l IH]; [simpl; lia|].
  change (omap f (x :: l)) with (match f x with Some y => y :: omap f l | None => omap f l end).
  destruct (f x); simpl; lia.
Qed.

Lemma sort_values_desc_numpy_length (f : list movie) :
  (length (sort_values_desc NumpySort.argsort f) <= length f)%nat.
Proof.
  unfold sort_values_desc, nargsort_desc.
  etransitivity; [apply length_omap_le|].
  rewrite length_reverse, length_map, SortLength.argsort_length, length_reverse, length_map. lia.
Qed.

(** X15: when [main] shows a result page, the number found is the
    number of filtered rows, positive and at most the catalog size; the
    page has at most that many rows, each of them a filtered row (so it
    matches every criterion). *)
Theorem main_page_from_filtered (df : list movie) (genres gs : list string) (mr : option Z)
    (ds : list Z) (dc : display_count) (found : nat) (page : list movie) (st : summary) :
  main (Some (df, genres)) gs mr ds dc = Results found page st ->
  found = length (filter_movies df gs mr ds) /\ (0 < found)%nat /\ (found <= length df)%nat /\
  (length page <= found)%nat /\
  (forall m, In m page -> In m (filter_movies df gs mr ds)).
Proof.
  intros H. destruct (main_run_results_inv _ _ _ _ _ _ _ _ _ _ H) as (Hne & -> & -> & ->).
  set (f := filter_movies df gs mr ds) in *.
  assert (Hsub : forall m, In m (match dc with
                                 | Count n => head n (sort_values_desc NumpySort.argsort f)
                                 | All => sort_values_desc NumpySort.argsort f end) ->
                           In m (sort_values_desc NumpySort.argsort f)).
  { intros m. destruct dc as [n|]; [|tauto]. unfold head.
    destruct (Z.leb 0 n); apply In_firstn_l. }
  assert (Hlen : (length (match dc with
                          | Count n => head n (sort_values_desc NumpySort.argsort f)
                          | All => sort_values_desc NumpySort.argsort f end)
                  <= length (sort_values_desc NumpySort.argsort f))%nat).
  { destruct dc as [n|]; [|lia]. unfold head.
    destruct (Z.leb 0 n); rewrite length_firstn; lia. }
  split; [reflexivity|]. split; [destruct f; [congruence | simpl; lia]|].
  split; [apply sublist_length, filter_movies_sublist|].
  split; [pose proof (sort_values_desc_numpy_length f); lia|].
  intros m Hm. apply (sort_values_desc_In NumpySort.argsort), Hsub, Hm.
Qed.

Lemma main_page_from_filtered_witness :
  main (Some ([Sample.A; Sample.B; Sample.C], [])) ["Drama"] None [] (Count 10) =
    Results 2 (firstn 10 (sort_values_desc NumpySort.argsort [Sample.A; Sample.C]))
              (summarize (int64_column [Sample.A; Sample.B; Sample.C])
                         (sort_values_desc NumpySort.argsort [Sample.A; Sample.C])) /\
  (length (firstn 10 (sort_values_desc NumpySort.argsort [Sample.A; Sample.C])) <= 2)%nat.
Proof.
  split; [reflexivity|].
  exact (proj1 (proj2 (proj2 (proj2 (main_page_from_filtered [Sample.A; Sample.B; Sample.C] [] ["Drama"]
           None [] (Count 10) 2 _ _ eq_refl))))).
Defined.

(** ** Distinct ratings fix the ranking *)

Section SortedUnique.
Variable key : movie -> Q.
Let desc := fun a b => Qle (key b) (key a).

Lemma sorted_by_tail (x : movie) (t : list movie) : sorted_by desc (x :: t) -> sorted_by desc t.
Proof. intros H i a b Ha Hb. exact (H (S i) a b Ha Hb). Qed.

Lemma sorted_by_head_max (x : movie) (t : list movie) :
  sorted_by desc (x :: t) -> forall z, In z (x :: t) -> Qle (key z) (key x).
Proof.
  intros H.
  assert (Hi : forall i z, (x :: t) !! i = Some z -> Qle (key z) (key x)).
  { induction i as [|i IH]; intros z Hz.
    - injection Hz as <-. apply Qle_refl.
    - destruct (lookup_lt_is_Some_2 (x :: t) i) as [w Hw].
      { apply lookup_lt_Some in Hz. lia. }
      eapply Qle_trans; [exact (H i w z Hw Hz) | exact (IH w Hw)]. }
  intros z Hz. apply list_elem_of_In, list_elem_of_lookup in Hz as [i Hz]. exact (Hi i z Hz).
Qed.

Lemma sorted_perm_unique (l1 l2 : list movie) :
  Permutation l1 l2 ->
  (forall x y, In x l1 -> In y l1 -> Qeq (key x) (key y) -> x = y) ->
  sorted_by desc l1 -> sorted_by desc l2 -> l1 = l2.
Proof.
  revert l2; induction l1 as [|x t1 IH]; intros l2 Hp Hd H1 H2.
  - symmetry. apply Permutation_nil, Hp.
  - destruct l2 as [|y t2]; [apply Permutation_sym, Permutation_nil in Hp; discriminate|].
    assert (Hy : In y (x :: t1)) by (apply (Permutation_in _ (Permutation_sym Hp)); left; reflexivity).
    assert (Hx : In x (y :: t2)) by (apply (Permutation_in _ Hp); left; reflexivity).
    assert (Exy : x = y).
    { apply Hd; [left; reflexivity | exact Hy|].
      apply Qle_antisym; [apply (sorted_by_head_max y t2 H2 x Hx) | apply (sorted_by_head_max x t1 H1 y Hy)]. }
    subst y. f_equal. apply IH.
    + apply Permutation_cons_inv in Hp. exact Hp.
    + intros a b Ha Hb. apply Hd; right; assumption.
    + apply sorted_by_tail in H1. exact H1.
    + apply sorted_by_tail in H2. exact H2.
Qed.

End SortedUnique.

(** X16: when the ratings of the filtered rows are pairwise different
    (rows with equal ratings being equal rows), every argsort meeting
    numpy's contract makes [main] show the same screen: the order of the
    page depends on the sort algorithm only among rows with equal ratings. *)
Theorem main_distinct_ratings_same_page (a1 a2 : list Q -> list nat) (df : list movie)
    (genres gs : list string) (mr : option Z) (ds : list Z) (dc : display_count) :
  argsort_spec a1 -> argsort_spec a2 ->
  (forall x y, In x (filter_movies df gs mr ds) -> In y (filter_movies df gs mr ds) ->
     Qeq (IMDB_Rating x) (IMDB_Rating y) -> x = y) ->
  main_run a1 (Some (df, genres)) gs mr ds dc = main_run a2 (Some (df, genres)) gs mr ds dc.
Proof.
  intros H1 H2 Hd. unfold main_run.
  set (f := filter_movies df gs mr ds) in *.
  assert (E : sort_values_desc a1 f = sort_values_desc a2 f).
  { apply (sorted_perm_unique IMDB_Rating).
    - rewrite (sort_values_desc_perm a1 f H1). symmetry. apply sort_values_desc_perm, H2.
    - intros x y Hx Hy. apply Hd; apply (sort_values_desc_In a1); assumption.
    - apply sort_values_desc_sorted, H1.
    - apply sort_values_desc_sorted, H2. }
  rewrite E. reflexivity.
Qed.

Lemma main_distinct_ratings_same_page_witness :
  main_run merge_argsort (Some ([Sample.A; Sample.B; Sample.C], [])) [] None [] All =
  main_run rev_merge_argsort (Some ([Sample.A; Sample.B; Sample.C], [])) [] None [] All.
Proof.
  apply main_distinct_ratings_same_page; [exact merge_argsort_spec | exact rev_merge_argsort_spec|].
  intros x y Hx Hy Hq. simpl in Hx, Hy.
  repeat (destruct Hx as [<- | Hx]); try contradiction;
  repeat (destruct Hy as [<- | Hy]); try contradiction;
  try reflexivity; vm_compute in Hq; discriminate.
Defined.
